(** * mbiotaDB: taxonomic count aggregation, count extraction and the
      tree parent index

    A shallow embedding of
    - [creator/taxon_merger.py] ([aggregate_at_taxon_level]),
    - [creator/count_parser.py] ([get_counts], [get_lineage],
      [get_lineage_map], [get_lineage_from_tree], [get_tree_taxa],
      [get_proc_id_from_biom], [get_tree_filename]) and
    - [debug_tools/profile_get_lineage_from_tree.py] ([all_parents],
      [get_path], [generate_asv_clades], [get_lineage_from_path]),
    together with the properties of these functions.

    Conventions of the embedding:
    - a function that can raise returns a [result]; [x ← e; k] runs [k] on
      the value of [e] and passes an exception on;
    - a [DataFrame] is a list of column labels and a list of rows; the
      aggregation is followed through the grouping columns, the rank columns
      and the ['count'] column, which holds integers ([keep_all_cols=False]);
    - [groupby] is pandas' default one: a row with a missing value in a key
      column is in no group, the groups come out sorted by key, and [sum]
      adds up the counts of each group;
    - a Bio.Phylo clade carries a number that stands for the identity of the
      Python object, since clades are dictionary keys by identity;
    - the loop of a traversal or of a walk up the tree takes its number of
      iterations as fuel;
    - files are read before the embedding starts: [get_counts] takes the
      loaded table and the tree, which is [None] when there is no tree
      file, and [get_tree_filename] takes the entries of the directory;
      paths are POSIX paths. *)

From Stdlib Require Import ZArith Lia Ascii.
From stdpp Require Import gmap strings list.

(** ** Python exceptions and results *)

(** The exception classes the modelled code can raise.  [GroupKeyError] is
    what pandas raises for a [groupby] key that is no column label (a
    [KeyError] for a string key). *)
Inductive exn :=
| ValueError (what : string)
| NoTaxonLevelPresent (not_found : list string)
| KeyError (what : string)
| TypeError (what : string)
| AttributeError (what : string)
| GroupKeyError.

Inductive result (A : Type) :=
| Ok (a : A)
| Raise (e : exn).
Arguments Ok {A} a.
Arguments Raise {A} e.

#[global] Instance result_ret : MRet result := fun A a => Ok a.
#[global] Instance result_bind : MBind result := fun A B f r =>
  match r with
  | Ok a => f a
  | Raise e => Raise e
  end.

(** ** Strings *)

Definition ascii_lower (c : ascii) : ascii :=
  let n := N_of_ascii c in
  if ((65 <=? n) && (n <=? 90))%N then ascii_of_N (n + 32) else c.

(** [str.lower] on ASCII text. *)
Fixpoint lower (s : string) : string :=
  match s with
  | EmptyString => EmptyString
  | String c s' => String (ascii_lower c) (lower s')
  end.

(** [re.sub(r'[\[\]]', '', s)]: every bracket character is deleted. *)
Fixpoint remove_brackets (s : string) : string :=
  match s with
  | EmptyString => EmptyString
  | String c s' =>
      if decide (c = "["%char \/ c = "]"%char) then remove_brackets s'
      else String c (remove_brackets s')
  end.

(** ** A pandas DataFrame *)

Module Pandas.

(** A column label: a string, or Python's [None]. *)
Inductive label :=
| L (s : string)
| LNone.

(** A cell: missing ([NaN]/[None]), an integer or a string. *)
Inductive cell :=
| NaN
| Int (z : Z)
| Str (s : string).

#[global] Instance label_eq_dec : EqDecision label.
Proof. solve_decision. Defined.
#[global] Instance cell_eq_dec : EqDecision cell.
Proof. solve_decision. Defined.

(** [columns] are the column labels, [columns_name] is [df.columns.name]
    (so [df.columns.names] is the one-element list [[columns_name]]; it is
    [None] for a frame built by [read_csv] or from records), [data] holds the
    rows, each aligned with [columns]. *)
Record DataFrame := mkDataFrame {
  columns : list label;
  columns_name : label;
  data : list (list cell)
}.

Definition isna (c : cell) : bool :=
  match c with
  | NaN => true
  | _ => false
  end.

(** [Index.get_loc]: position of the first occurrence of a label. *)
Fixpoint get_loc (c : label) (cols : list label) : option nat :=
  match cols with
  | [] => None
  | c' :: rest => if decide (c = c') then Some 0 else S <$> get_loc c rest
  end.

(** The cell of [row] in the column labelled [c]. *)
Definition cell_at (cols : list label) (row : list cell) (c : label) : cell :=
  match get_loc c cols with
  | Some i => default NaN (row !! i)
  | None => NaN
  end.

(** The order pandas sorts group keys by: integers numerically, strings by
    code point, key tuples lexicographically. *)
Definition cell_compare (a b : cell) : comparison :=
  match a, b with
  | Int x, Int y => Z.compare x y
  | Str x, Str y => String.compare x y
  | NaN, NaN => Eq
  | NaN, _ => Lt
  | _, NaN => Gt
  | Int _, Str _ => Lt
  | Str _, Int _ => Gt
  end.

Fixpoint key_compare (a b : list cell) : comparison :=
  match a, b with
  | [], [] => Eq
  | [], _ :: _ => Lt
  | _ :: _, [] => Gt
  | x :: a', y :: b' =>
      match cell_compare x y with
      | Eq => key_compare a' b'
      | c => c
      end
  end.

Fixpoint insert_sorted (x : list cell * Z) (l : list (list cell * Z))
  : list (list cell * Z) :=
  match l with
  | [] => [x]
  | y :: l' =>
      match key_compare x.1 y.1 with
      | Gt => y :: insert_sorted x l'
      | _ => x :: l
      end
  end.

Definition sort_groups (l : list (list cell * Z)) : list (list cell * Z) :=
  foldr insert_sorted [] l.

(** The values of the grouping columns [by] in a row. *)
Definition group_key (cols : list label) (by_ : list label) (row : list cell)
  : list cell :=
  cell_at cols row <$> by_.

Definition has_na (k : list cell) : bool := existsb isna k.

(** The row's entry in the ['count'] column, as the summation reads it. *)
Definition count_of (cols : list label) (row : list cell) : Z :=
  match cell_at cols row (L "count") with
  | Int z => z
  | _ => 0%Z
  end.

Definition sumZ (l : list Z) : Z := foldr Z.add 0%Z l.

Definition sum_values (kvs : list (list cell * Z)) : Z := sumZ kvs.*2.

(** Sum of the values filed under key [k]. *)
Definition total_for (k : list cell) (kvs : list (list cell * Z)) : Z :=
  sum_values (filter (fun kv => kv.1 = k) kvs).

(** One entry per distinct key, carrying the sum of its values, in key
    order. *)
Definition sum_by (kvs : list (list cell * Z)) : list (list cell * Z) :=
  sort_groups ((fun k => (k, total_for k kvs)) <$> remove_dups (kvs.*1)).

(** The rows [groupby] keeps, each as (key, count): a row with a missing
    value in one of the key columns belongs to no group (pandas excludes
    missing keys: [dropna=True], the default, and the only behaviour of the
    versions that still have [DataFrame.append]). *)
Definition keyed_rows (df : DataFrame) (by_ : list label)
  : list (list cell * Z) :=
  (fun row => (group_key (columns df) by_ row, count_of (columns df) row))
    <$> filter (fun row => has_na (group_key (columns df) by_ row) = false)
          (data df).

(** The result of [df.groupby(by).sum()], restricted to its ['count']
    column: the index level names and one (key, summed count) entry per
    group. *)
Record Summed := mkSummed {
  levels : list label;
  entries : list (list cell * Z)
}.

Definition groupby_sum (df : DataFrame) (by_ : list label) : result Summed :=
  match by_ with
  | [] => Raise (ValueError "No group keys passed!")
  | _ =>
      if decide (Forall (fun c => c ∈ columns df) by_)
      then Ok (mkSummed by_ (sum_by (keyed_rows df by_)))
      else Raise GroupKeyError
  end.

(** [df['count'].sum()]. *)
Definition total_count (df : DataFrame) : Z :=
  sumZ (count_of (columns df) <$> data df).

End Pandas.

(** ** creator/taxon_merger.py *)

Module TaxonMerger.
Import Pandas.

Definition recognized_taxon_levels : list string :=
  ["kingdom"; "phylum"; "class"; "order"; "family"; "genus"; "species"].

Definition dummy_levels : list string :=
  ["k__"; "p__"; "c__"; "o__"; "f__"; "g__"; "s__"].

(** [dict(zip(recognized_taxon_levels, dummy_levels))] *)
Definition default_dummy_dict : gmap string string :=
  list_to_map (zip recognized_taxon_levels dummy_levels).

(** The loop over [dummy_values.items()], in iteration order. *)
Fixpoint process_dummy_values (dummy_values : list (string * string))
    (dummy_dict : gmap string string) : result (gmap string string) :=
  match dummy_values with
  | [] => Ok dummy_dict
  | (key, value) :: rest =>
      let key := lower key in
      match dummy_dict !! key with
      | None => Raise (ValueError "dummy_values")
      | Some _ => process_dummy_values rest (<[key := value]> dummy_dict)
      end
  end.

(** [dummy_values] with every key in lower case. *)
Definition lower_keys (dummy_values : list (string * string))
  : list (string * string) :=
  (fun kv => (lower kv.1, kv.2)) <$> dummy_values.

(** [list.index] *)
Fixpoint index (x : string) (l : list string) : option nat :=
  match l with
  | [] => None
  | y :: l' => if decide (x = y) then Some 0 else S <$> index x l'
  end.

(** [df[cols] = df.loc[:, cols].replace(r'[\[\]]', '', regex=True)]: the
    string cells of the columns [cols] lose their brackets. *)
Definition replace_brackets (cols : list label) (df : DataFrame) : DataFrame :=
  mkDataFrame (columns df) (columns_name df)
    ((fun row =>
        zip_with (fun c v =>
                    match v with
                    | Str s => if decide (c ∈ cols) then Str (remove_brackets s) else v
                    | _ => v
                    end) (columns df) row) <$> data df).

(** [summed.xs(key, level=level)]: the entries whose [level] component is
    [key], with that level dropped.  pandas wants a MultiIndex and raises
    [KeyError] when no entry carries [key]. *)
Definition xs (key : cell) (level : label) (s : Summed) : result Summed :=
  match levels s with
  | [] | [_] => Raise (TypeError "Index must be a MultiIndex")
  | _ =>
      match get_loc level (levels s) with
      | None => Raise (KeyError "level")
      | Some i =>
          match filter (fun kv => default NaN (kv.1 !! i) = key) (entries s) with
          | [] => Raise (KeyError "xs")
          | found =>
              Ok (mkSummed (delete i (levels s))
                    ((fun kv => (delete i kv.1, kv.2)) <$> found))
          end
      end
  end.

(** The index levels as columns, followed by the summed ['count']. *)
Definition to_frame (name : label) (s : Summed) : DataFrame :=
  mkDataFrame (levels s ++ [L "count"]) name
    ((fun kv => kv.1 ++ [Int kv.2]) <$> entries s).

(** [summed.reset_index()]: pandas refuses to turn two index levels of one
    name into columns. *)
Definition reset_index (name : label) (s : Summed) : result DataFrame :=
  if decide (NoDup (levels s)) then Ok (to_frame name s)
  else Raise (ValueError "cannot insert, already exists").

(** [df[df[c] != v]] *)
Definition rows_ne (c : label) (v : cell) (df : DataFrame) : DataFrame :=
  mkDataFrame (columns df) (columns_name df)
    (filter (fun row => cell_at (columns df) row c <> v) (data df)).

(** [df.append(other, ignore_index=True, sort=False)] for an [other] whose
    columns are among those of [df]: the cells [other] lacks are missing. *)
Definition append (df other : DataFrame) : DataFrame :=
  mkDataFrame (columns df) (columns_name df)
    (data df ++ ((fun row => cell_at (columns other) row <$> columns df) <$> data other)).

(** [df[labels]] for a list of labels. *)
Definition select (labels : list label) (df : DataFrame) : result DataFrame :=
  if decide (Forall (fun c => c ∈ columns df) labels)
  then Ok (mkDataFrame labels (columns_name df)
             ((fun row => cell_at (columns df) row <$> labels) <$> data df))
  else Raise (KeyError "not in index").

(** [df.loc[df[c] == v, 'count'] = 0] *)
Definition zero_count_where (c : label) (v : cell) (df : DataFrame) : DataFrame :=
  mkDataFrame (columns df) (columns_name df)
    ((fun row =>
        if decide (cell_at (columns df) row c = v)
        then zip_with (fun c' x => if decide (c' = L "count") then Int 0 else x)
               (columns df) row
        else row) <$> data df).

(** The [else] branch for an empty [grouping_cols]:
    [upper_index = df.columns.get_loc('kingdom')] and
    [grouping_cols = df.columns.names[:upper_index]], a slice of the list of
    names of the column index. *)
Definition default_grouping_cols (df : DataFrame) : result (list label) :=
  match get_loc (L "kingdom") (columns df) with
  | Some upper_index => Ok (take upper_index [columns_name df])
  | None => Raise (KeyError "kingdom")
  end.

(** [df.columns.intersection(recognized_taxon_levels)] *)
Definition taxon_cols_present (df : DataFrame) : list label :=
  filter (fun c => c ∈ L <$> recognized_taxon_levels) (columns df).

(** The frame that is grouped: with [check_brackets], the rank columns have
    lost their brackets. *)
Definition normalized (check_brackets : bool) (df : DataFrame) : DataFrame :=
  if check_brackets then replace_brackets (taxon_cols_present df) df else df.

(** The block under [if not simple_aggregation]: the summed entries that
    carry the dummy label are summed again by [grouping_cols] alone, taken
    out of [new_df] and appended to it without their rank labels. *)
Definition collapse_unknown (name : label) (taxon_level : string) (dummy : cell)
    (grouping_cols : list label) (summed_df : Summed) (new_df : DataFrame)
  : result DataFrame :=
  match xs dummy (L taxon_level) summed_df with
  | Raise (KeyError _) => Ok new_df
  | Raise e => Raise e
  | Ok count_unknown_genera =>
      s ← groupby_sum (to_frame name count_unknown_genera) grouping_cols;
      new_rows ← reset_index name s;
      Ok (append (rows_ne (L taxon_level) dummy new_df) new_rows)
  end.

(** The [if missing_method == ...] chain. *)
Definition handle_missing (name : label) (missing_method taxon_level : string)
    (dummy : cell) (required_taxon_levels : list string)
    (grouping_cols : list label) (summed_df : Summed) (new_df : DataFrame)
  : result DataFrame :=
  if decide (missing_method = "sum") then Ok new_df
  else if decide (missing_method = "remove") then
    Ok (mkDataFrame (columns new_df) (columns_name new_df)
          (filter (fun row =>
                     ~ (cell_at (columns new_df) row (L taxon_level) = dummy
                        \/ isna (cell_at (columns new_df) row (L taxon_level)) = true))
             (data new_df)))
  else if decide (missing_method = "zero_counts") then
    unique_lineages ← select (L <$> required_taxon_levels) new_df;
    _ ← groupby_sum new_df grouping_cols;
    new_df ← reset_index name summed_df;
    Ok (zero_count_where (L taxon_level) dummy new_df)
  else Raise (ValueError missing_method).

(** [aggregate_at_taxon_level], with [keep_all_cols=False]: the frame is read
    through its grouping, rank and ['count'] columns; the ['count'] column is
    taken to hold integers and not to be a grouping column. *)
Definition aggregate_at_taxon_level (df : DataFrame) (taxon_level : string)
    (grouping_cols : list label) (dummy_values : list (string * string))
    (missing_method : string) (check_brackets simple_aggregation : bool)
  : result DataFrame :=
  let taxon_level := lower taxon_level in
  dummy_dict ← process_dummy_values dummy_values default_dummy_dict;
  taxon_level_index ←
    match index taxon_level recognized_taxon_levels with
    | Some i => Ok i
    | None => Raise (ValueError taxon_level)
    end;
  let required_taxon_levels := take (S taxon_level_index) recognized_taxon_levels in
  let columns_not_found :=
    filter (fun level => L level ∉ taxon_cols_present df) required_taxon_levels in
  if decide (L taxon_level ∉ taxon_cols_present df)
  then Raise (NoTaxonLevelPresent [taxon_level])
  else
  match columns_not_found with
  | _ :: _ => Raise (NoTaxonLevelPresent columns_not_found)
  | [] =>
  grouping_cols ←
    match grouping_cols with
    | _ :: _ =>
        match filter (fun col => col ∉ columns df) grouping_cols with
        | [] => Ok grouping_cols
        | _ :: _ => Raise (ValueError "grouping_cols")
        end
    | [] => default_grouping_cols df
    end;
  let columns_ :=
    if simple_aggregation then grouping_cols ++ [L taxon_level]
    else grouping_cols ++ (L <$> required_taxon_levels) in
  let name := columns_name df in
  let df := normalized check_brackets df in
  let dummy := Str (default taxon_level (dummy_dict !! taxon_level)) in
  summed_df ← groupby_sum df columns_;
  new_df ← reset_index name summed_df;
  new_df ←
    (if simple_aggregation then Ok new_df
     else collapse_unknown name taxon_level dummy grouping_cols summed_df new_df);
  new_df ←
    handle_missing name missing_method taxon_level dummy required_taxon_levels
      grouping_cols summed_df new_df;
  select (columns_ ++ [L "count"]) new_df
  end.

(** The summed count of the rows of [df] filed under the key [k] of the
    columns [by_]. *)
Definition group_total (df : DataFrame) (by_ : list label) (k : list cell) : Z :=
  sumZ
    (count_of (columns df)
       <$> filter (fun row => group_key (columns df) by_ row = k) (data df)).

(** The summed count of the rows of [df] that belong to a group of the
    columns [by_], carry the values [gk] in the grouping columns [gc] and the
    label [dummy] at the rank [level]. *)
Definition bucket_total (df : DataFrame) (by_ gc : list label) (level : label)
    (dummy : cell) (gk : list cell) : Z :=
  sumZ
    (count_of (columns df)
       <$> filter (fun row => has_na (group_key (columns df) by_ row) = false
                              /\ group_key (columns df) gc row = gk
                              /\ cell_at (columns df) row level = dummy)
             (data df)).

(** [df[~((df[c] == v) | df[c].isna())]]: the rows the [remove] policy
    keeps. *)
Definition rows_known (c : label) (v : cell) (df : DataFrame) : DataFrame :=
  mkDataFrame (columns df) (columns_name df)
    (filter (fun row =>
               ~ (cell_at (columns df) row c = v
                  \/ isna (cell_at (columns df) row c) = true))
       (data df)).

(** The columns the aggregation groups by. *)
Definition group_columns (simple_aggregation : bool) (grouping_cols : list label)
    (taxon_level : string) (taxon_level_index : nat) : list label :=
  if simple_aggregation then grouping_cols ++ [L taxon_level]
  else grouping_cols ++ (L <$> take (S taxon_level_index) recognized_taxon_levels).

End TaxonMerger.

(** ** The fixtures of test/test_taxon_merger.py *)

Module Fixtures.
Import Pandas.

(** [TaxonMergerTest.columns] *)
Definition columns_ : list label :=
  [L "experiment_id"; L "subject_id"; L "sample_id"; L "sample_time_id";
   L "sample_site_id"; L "preperation_id"; L "workflow_id"; L "lineage_id";
   L "seq_var_id"; L "count"; L "id"; L "kingdom"; L "phylum"; L "class";
   L "order"; L "family"; L "genus"; L "species"].

(** [TaxonMergerTest.grouping_cols] *)
Definition grouping_cols : list label :=
  [L "experiment_id"; L "subject_id"; L "sample_id"; L "sample_time_id";
   L "sample_site_id"; L "preperation_id"; L "workflow_id"].

(** [TaxonMergerTest.df]: [data2] read by [pd.read_csv]. *)
Definition df : DataFrame := mkDataFrame columns_ LNone
  [
    [Int 1; Int 1; Int 1; Int 1; Int 1; Int 1; Int 1; Int 1; NaN; Int 1; Int 1; Str "k__A"; Str "p__B"; Str "c__E"; Str "o__H"; Str "f__K"; Str "g__O"; Str "s__q"];
    [Int 1; Int 1; Int 1; Int 1; Int 1; Int 1; Int 1; Int 2; NaN; Int 2; Int 2; Str "k__A"; Str "p__C"; Str "c__F"; Str "o__I"; Str "f__L"; Str "g__"; Str "s__"];
    [Int 1; Int 1; Int 1; Int 1; Int 1; Int 1; Int 1; Int 3; NaN; Int 1; Int 3; Str "k__A"; Str "p__D"; Str "c__G"; Str "o__J"; Str "f__M"; Str "g__P"; Str "s__"];
    [Int 1; Int 1; Int 1; Int 1; Int 1; Int 1; Int 1; Int 4; NaN; Int 2; Int 4; Str "k__A"; Str "p__C"; Str "c__F"; Str "o__I"; Str "f__L"; Str "g__"; Str "s__"];
    [Int 2; Int 2; Int 2; Int 2; Int 2; Int 2; Int 2; Int 5; NaN; Int 1; Int 5; Str "k__A"; Str "p__C"; Str "c__F"; Str "o__I"; Str "f__N"; Str "g__"; Str "s__"];
    [Int 2; Int 2; Int 2; Int 2; Int 2; Int 2; Int 2; Int 6; NaN; Int 2; Int 6; Str "k__A"; Str "p__D"; Str "c__G"; Str "o__J"; Str "f__M"; Str "g__P"; Str "s__"];
    [Int 2; Int 2; Int 2; Int 2; Int 2; Int 2; Int 2; Int 7; NaN; Int 1; Int 7; Str "k__A"; Str "p__C"; Str "c__F"; Str "o__I"; Str "f__N"; Str "g__"; Str "s__"];
    [Int 2; Int 2; Int 2; Int 2; Int 2; Int 2; Int 2; Int 8; NaN; Int 2; Int 8; Str "k__A"; Str "p__C"; Str "c__F"; Str "o__I"; Str "f__N"; Str "g__"; Str "s__"];
    [Int 3; Int 3; Int 3; Int 3; Int 3; Int 3; Int 2; Int 9; NaN; Int 1; Int 9; Str "k__A"; Str "p__C"; Str "c__F"; Str "o__I"; Str "f__N"; Str "g__"; Str "s__"];
    [Int 3; Int 3; Int 3; Int 3; Int 3; Int 3; Int 2; Int 10; NaN; Int 2; Int 10; Str "k__A"; Str "p__D"; Str "c__G"; Str "o__J"; Str "f__M"; Str "g__P"; Str "s__"];
    [Int 3; Int 3; Int 3; Int 3; Int 3; Int 3; Int 2; Int 11; NaN; Int 1; Int 11; Str "k__A"; Str "p__C"; Str "c__F"; Str "o__I"; Str "f__L"; Str "g__"; Str "s__"];
    [Int 3; Int 3; Int 3; Int 3; Int 3; Int 3; Int 2; Int 12; NaN; Int 2; Int 12; Str "k__A"; Str "p__D"; Str "c__G"; Str "o__J"; Str "f__M"; Str "g__P"; Str "s__r"]
  ].

(** [TaxonMergerTest.simple_sum] *)
Definition simple_sum : DataFrame :=
  mkDataFrame (grouping_cols ++ [L "genus"; L "count"]) LNone
  [
    [Int 1; Int 1; Int 1; Int 1; Int 1; Int 1; Int 1; Str "g__"; Int 4];
    [Int 1; Int 1; Int 1; Int 1; Int 1; Int 1; Int 1; Str "g__O"; Int 1];
    [Int 1; Int 1; Int 1; Int 1; Int 1; Int 1; Int 1; Str "g__P"; Int 1];
    [Int 2; Int 2; Int 2; Int 2; Int 2; Int 2; Int 2; Str "g__"; Int 4];
    [Int 2; Int 2; Int 2; Int 2; Int 2; Int 2; Int 2; Str "g__P"; Int 2];
    [Int 3; Int 3; Int 3; Int 3; Int 3; Int 3; Int 2; Str "g__"; Int 2];
    [Int 3; Int 3; Int 3; Int 3; Int 3; Int 3; Int 2; Str "g__P"; Int 4]
  ].

(** [TaxonMergerTest.complex_sum_genus] *)
Definition complex_sum_genus : DataFrame :=
  mkDataFrame
    (grouping_cols ++ [L "kingdom"; L "phylum"; L "class"; L "order";
                       L "family"; L "genus"; L "count"]) LNone
  [
    [Int 1; Int 1; Int 1; Int 1; Int 1; Int 1; Int 1; Str "k__A"; Str "p__B"; Str "c__E"; Str "o__H"; Str "f__K"; Str "g__O"; Int 1];
    [Int 1; Int 1; Int 1; Int 1; Int 1; Int 1; Int 1; Str "k__A"; Str "p__D"; Str "c__G"; Str "o__J"; Str "f__M"; Str "g__P"; Int 1];
    [Int 2; Int 2; Int 2; Int 2; Int 2; Int 2; Int 2; Str "k__A"; Str "p__D"; Str "c__G"; Str "o__J"; Str "f__M"; Str "g__P"; Int 2];
    [Int 3; Int 3; Int 3; Int 3; Int 3; Int 3; Int 2; Str "k__A"; Str "p__D"; Str "c__G"; Str "o__J"; Str "f__M"; Str "g__P"; Int 4];
    [Int 1; Int 1; Int 1; Int 1; Int 1; Int 1; Int 1; NaN; NaN; NaN; NaN; NaN; NaN; Int 4];
    [Int 2; Int 2; Int 2; Int 2; Int 2; Int 2; Int 2; NaN; NaN; NaN; NaN; NaN; NaN; Int 4];
    [Int 3; Int 3; Int 3; Int 3; Int 3; Int 3; Int 2; NaN; NaN; NaN; NaN; NaN; NaN; Int 2]
  ]
.

(** [TaxonMergerTest.complex_sum_class] *)
Definition complex_sum_class : DataFrame :=
  mkDataFrame
    (grouping_cols ++ [L "kingdom"; L "phylum"; L "class"; L "count"]) LNone
  [
    [Int 1; Int 1; Int 1; Int 1; Int 1; Int 1; Int 1; Str "k__A"; Str "p__B"; Str "c__E"; Int 1];
    [Int 1; Int 1; Int 1; Int 1; Int 1; Int 1; Int 1; Str "k__A"; Str "p__C"; Str "c__F"; Int 4];
    [Int 1; Int 1; Int 1; Int 1; Int 1; Int 1; Int 1; Str "k__A"; Str "p__D"; Str "c__G"; Int 1];
    [Int 2; Int 2; Int 2; Int 2; Int 2; Int 2; Int 2; Str "k__A"; Str "p__C"; Str "c__F"; Int 4];
    [Int 2; Int 2; Int 2; Int 2; Int 2; Int 2; Int 2; Str "k__A"; Str "p__D"; Str "c__G"; Int 2];
    [Int 3; Int 3; Int 3; Int 3; Int 3; Int 3; Int 2; Str "k__A"; Str "p__C"; Str "c__F"; Int 2];
    [Int 3; Int 3; Int 3; Int 3; Int 3; Int 3; Int 2; Str "k__A"; Str "p__D"; Str "c__G"; Int 4]
  ].

(** [TaxonMergerTest.simple_sum_custom_dummy] *)
Definition simple_sum_custom_dummy : DataFrame :=
  mkDataFrame (grouping_cols ++ [L "genus"; L "count"]) LNone
  [
    [Int 1; Int 1; Int 1; Int 1; Int 1; Int 1; Int 1; Str "CUSTOM"; Int 4];
    [Int 1; Int 1; Int 1; Int 1; Int 1; Int 1; Int 1; Str "g__O"; Int 1];
    [Int 1; Int 1; Int 1; Int 1; Int 1; Int 1; Int 1; Str "g__P"; Int 1];
    [Int 2; Int 2; Int 2; Int 2; Int 2; Int 2; Int 2; Str "CUSTOM"; Int 4];
    [Int 2; Int 2; Int 2; Int 2; Int 2; Int 2; Int 2; Str "g__P"; Int 2];
    [Int 3; Int 3; Int 3; Int 3; Int 3; Int 3; Int 2; Str "CUSTOM"; Int 2];
    [Int 3; Int 3; Int 3; Int 3; Int 3; Int 3; Int 2; Str "g__P"; Int 4]
  ].

(** [temp_df] of [test_custom_dummy_values]:
    [temp_df.loc[temp_df['genus'] == 'g__', 'genus'] = 'CUSTOM'] *)
Definition temp_df : DataFrame :=
  mkDataFrame (columns df) (columns_name df)
    ((fun row =>
        zip_with (fun c v =>
                    if decide (c = L "genus" /\ v = Str "g__") then Str "CUSTOM"
                    else v) (columns df) row) <$> data df).

(** [df.rename(columns={old: new})] *)
Definition rename (old new : string) (df : DataFrame) : DataFrame :=
  mkDataFrame ((fun c => if decide (c = L old) then L new else c) <$> columns df)
    (columns_name df) (data df).

(** The second row of the reference table: lineage k__A, p__C, c__F, o__I,
    f__L with the dummy genus g__, in group (1,1,1,1,1,1,1). *)
Definition dummy_genus_row : list cell :=
  [Int 1; Int 1; Int 1; Int 1; Int 1; Int 1; Int 1; Int 2; NaN; Int 2; Int 2;
   Str "k__A"; Str "p__C"; Str "c__F"; Str "o__I"; Str "f__L"; Str "g__";
   Str "s__"].

Definition through_genus : list label :=
  [L "kingdom"; L "phylum"; L "class"; L "order"; L "family"; L "genus"].

End Fixtures.

(** ** Bio.Phylo trees *)

Module Phylo.

#[local] Set Warnings "-register-all".

(** A clade: [ident] stands for the identity of the Python object (clades
    are hashed and compared by identity), [name] is [clade.name], [clades]
    the children. *)
Inductive Clade :=
| mkClade (ident : nat) (name : option string) (clades : list Clade).

Definition ident (c : Clade) : nat :=
  match c with mkClade i _ _ => i end.
Definition name (c : Clade) : option string :=
  match c with mkClade _ n _ => n end.
Definition clades (c : Clade) : list Clade :=
  match c with mkClade _ _ cs => cs end.

(** [find_clades()] in its default (preorder) order. *)
Fixpoint nodes (c : Clade) : list Clade :=
  match c with
  | mkClade _ _ cs => c :: (cs ≫= nodes)
  end.

(** [_level_traverse]: pop the queue's head, yield it, push its children;
    [fuel] bounds the number of pops. *)
Fixpoint level_traverse (fuel : nat) (Q : list Clade) : list Clade :=
  match fuel with
  | 0 => []
  | S fuel' =>
      match Q with
      | [] => []
      | v :: Q' => v :: level_traverse fuel' (Q' ++ clades v)
      end
  end.

(** [tree.find_clades(order='level')]: one pop per clade of the tree. *)
Definition find_clades_level (tree : Clade) : list Clade :=
  level_traverse (length (nodes tree)) [tree].

(** [clade] is reached from [tree] by [d] child steps. *)
Inductive at_depth (tree : Clade) : nat -> Clade -> Prop :=
| at_depth_root : at_depth tree 0 tree
| at_depth_child d p c :
    at_depth tree d p -> c ∈ clades p -> at_depth tree (S d) c.

(** [path] leads from [clade] up to the root [tree], both included. *)
Inductive path_to_root (tree : Clade) : Clade -> list Clade -> Prop :=
| path_root : path_to_root tree tree [tree]
| path_child p c path :
    path_to_root tree p path -> c ∈ clades p ->
    path_to_root tree c (c :: path).

(** [tree.find_any(name=s)]: the first clade, in preorder, of that name
    (names without regular-expression metacharacters). *)
Definition find_any (tree : Clade) (s : string) : option Clade :=
  snd <$> list_find (fun c => name c = Some s) (nodes tree).

(** [self.is_parent_of(target)]: [target] is [self] or below it. *)
Definition is_parent_of (self target : Clade) : bool :=
  bool_decide (ident target ∈ ident <$> nodes self).

End Phylo.

(** ** debug_tools/profile_get_lineage_from_tree.py *)

Module ProfileLineage.
Import Phylo.

(** [all_parents]: [parents[child] = clade] for every child of every clade,
    clades taken in level order. *)
Definition all_parents (tree : Clade) : gmap nat Clade :=
  foldl (fun parents clade =>
           foldl (fun parents child => <[ident child := clade]> parents)
             parents (clades clade))
    ∅ (find_clades_level tree).

(** The assignments [parents[child] = clade] made while [clade] is
    visited, as (key, value) pairs. *)
Definition child_edges (clade : Clade) : list (nat * Clade) :=
  (fun child => (ident child, clade)) <$> clades clade.

(** The [while True] loop of [get_path]; [None] when [fuel] iterations did
    not reach the [KeyError] that ends it. *)
Fixpoint get_path_loop (fuel : nat) (parents : gmap nat Clade) (clade : Clade)
    (path : list Clade) : option (list Clade) :=
  match fuel with
  | 0 => None
  | S fuel' =>
      let path := path ++ [clade] in
      match parents !! ident clade with
      | Some clade' => get_path_loop fuel' parents clade' path
      | None => Some path
      end
  end.

(** [get_path(seq, parents, asv_clades)]: the inner option is Python's
    [None] for a [seq] that is not in [asv_clades]. *)
Definition get_path (fuel : nat) (seq : string) (parents : gmap nat Clade)
    (asv_clades : gmap string Clade) : option (option (list Clade)) :=
  match asv_clades !! seq with
  | None => Some None
  | Some clade => Some <$> get_path_loop fuel parents clade []
  end.

End ProfileLineage.

(** ** creator/count_parser.py *)

Module CountParser.
Import Phylo.

(** [model.Lineage]: the seven rank columns. *)
Record Lineage := mkLineage {
  kingdom_ : option string;
  phylum_ : option string;
  class_ : option string;
  order_ : option string;
  family_ : option string;
  genus_ : option string;
  species_ : option string
}.

(** [model.SequencingVariant] *)
Record SequencingVariant := mkSequencingVariant {
  sequencing_variant : string
}.

Record CountElement := mkCountElement {
  count : Z;
  lineage : Lineage;
  seq_var : option SequencingVariant
}.

(** A BIOM table as the parser reads it: [observation_metadata] is [None]
    when the table carries no observation metadata, and otherwise gives the
    metadata dictionary of each observation (here its ['taxonomy'] entry,
    when it has one); [nonzero] lists the nonzero cells as
    (observation id, sample id, value), in the order [table.nonzero()]
    yields them. *)
Record Table := mkTable {
  observation_ids : list string;
  observation_metadata : option (gmap string (option (list string)));
  nonzero : list (string * string * Z)
}.

Definition is_digit (c : ascii) : bool :=
  let n := N_of_ascii c in ((48 <=? n) && (n <=? 57))%N.

(** [\w] on ASCII text. *)
Definition is_word (c : ascii) : bool :=
  let n := N_of_ascii c in
  (is_digit c || ((65 <=? n) && (n <=? 90)) || ((97 <=? n) && (n <=? 122))
   || (n =? 95))%N.

(** The longest prefix of characters satisfying [p], and the rest. *)
Fixpoint span (p : ascii -> bool) (s : string) : string * string :=
  match s with
  | EmptyString => (EmptyString, EmptyString)
  | String c s' =>
      if p c then let '(a, b) := span p s' in (String c a, b)
      else (EmptyString, s)
  end.

(** The [name] group of [taxon_name_re] at the start of [s] (a word
    character, two underscores, then word characters and hyphens): the name
    and the text after it. *)
Definition match_name (s : string) : option (string * string) :=
  match s with
  | String c (String "_" (String "_" r)) =>
      if is_word c then
        let '(body, rest) := span (fun x => is_word x || bool_decide (x = "-"%char)) r in
        Some (String c (String "_" (String "_" body)), rest)
      else None
  | _ => None
  end.

(** [taxon_name_re.match] at the start of [s]: the optional branch length
    [([\d.]+:)?] is tried first, then the name alone. *)
Definition match_taxon_name (s : string) : option (string * string) :=
  match span (fun x => is_digit x || bool_decide (x = "."%char)) s with
  | (String _ _, String ":" r) =>
      match match_name r with
      | Some m => Some m
      | None => match_name s
      end
  | _ => match_name s
  end.

(** [taxon_name_re.finditer(s)], each match given by its [name] group. *)
Fixpoint finditer_names (fuel : nat) (s : string) : list string :=
  match fuel with
  | 0 => []
  | S fuel' =>
      match s with
      | EmptyString => []
      | String _ s' =>
          match match_taxon_name s with
          | Some (nm, rest) => nm :: finditer_names fuel' rest
          | None => finditer_names fuel' s'
          end
      end
  end.

Definition taxon_names (s : string) : list string :=
  finditer_names (String.length s) s.

(** [s[:3]] *)
Definition prefix3 (s : string) : string := String.substring 0 3 s.

(** [re.match('[ATGCN]+', s)]: [s] starts with a nucleotide letter. *)
Definition match_nucleotides (s : string) : bool :=
  match s with
  | String c _ =>
      bool_decide (c ∈ ["A"; "T"; "G"; "C"; "N"]%char)
  | EmptyString => false
  end.

(** [name] matches [r'.*__.*']: it contains two underscores in a row. *)
Fixpoint has_double_underscore (s : string) : bool :=
  match s with
  | String "_" ((String "_" _) as s') => true
  | String _ s' => has_double_underscore s'
  | EmptyString => false
  end.

(** [get_tree_taxa]: [tree.find_elements(name=r'.*__.*')], in preorder. *)
Definition get_tree_taxa (tree : Clade) : list Clade :=
  filter (fun c => from_option has_double_underscore false (name c) = true)
    (nodes tree).

(** [lineage[key] = value] on an [OrderedDict]: an existing key keeps its
    place, a new one goes to the end. *)
Fixpoint odict_set (key value : string) (d : list (string * string))
  : list (string * string) :=
  match d with
  | [] => [(key, value)]
  | (k, v) :: d' =>
      if decide (k = key) then (k, value) :: d'
      else (k, v) :: odict_set key value d'
  end.

Definition taxa_prefix : list string :=
  ["k__"; "p__"; "c__"; "o__"; "f__"; "g__"; "s__"].

(** [get_lineage_from_tree]; [tree] and [taxa] are [None] when the BIOM file
    has no tree file next to it, and [tree.find_any] on [None] raises. *)
Definition get_lineage_from_tree (obs_id : string) (tree : option Clade)
    (taxa : option (list Clade)) : result (list (option string)) :=
  match tree with
  | None => Raise (AttributeError "find_any")
  | Some tree =>
      let seq_var := find_any tree obs_id in
      let lineage := zip taxa_prefix taxa_prefix in
      match seq_var with
      | None => Ok (replicate (length taxa_prefix) None)
      | Some seq_var =>
          match taxa with
          | None => Raise (TypeError "NoneType is not iterable")
          | Some taxa =>
              let lineage :=
                foldl (fun lineage taxon =>
                         if is_parent_of taxon seq_var then
                           foldl (fun lineage taxon_name =>
                                    odict_set (prefix3 taxon_name) taxon_name lineage)
                             lineage (taxon_names (default EmptyString (name taxon)))
                         else lineage)
                  lineage taxa in
              Ok (Some <$> lineage.*2)
          end
      end
  end.

(** The [Lineage] built from [dict(zip(names, lineage))]: the first seven
    entries, by position; an attribute that is not given stays [None]. *)
Definition make_lineage (l : list (option string)) : Lineage :=
  let at_ i := default None (l !! i) in
  mkLineage (at_ 0) (at_ 1) (at_ 2) (at_ 3) (at_ 4) (at_ 5) (at_ 6).

(** [get_lineage]: [table.metadata(obs_id, axis='observation')] is [None]
    for a table without observation metadata, and indexing it raises the
    [TypeError] that sends the lookup to the tree. *)
Definition get_lineage (table : Table) (obs_id : string) (tree : option Clade)
    (taxa : option (list Clade)) : result Lineage :=
  lineage ←
    (match observation_metadata table with
     | None => get_lineage_from_tree obs_id tree taxa
     | Some md =>
         match md !! obs_id with
         | None => Raise (KeyError obs_id)
         | Some None => Raise (TypeError "taxonomy")
         | Some (Some taxonomy) => Ok (Some <$> taxonomy)
         end
     end : result (list (option string)));
  Ok (make_lineage lineage).

Fixpoint get_lineage_map_loop (table : Table) (ids : list string)
    (tree : option Clade) (taxa : option (list Clade))
    (lineage_map : gmap string Lineage) : result (gmap string Lineage) :=
  match ids with
  | [] => Ok lineage_map
  | obs_id :: ids' =>
      lineage ← get_lineage table obs_id tree taxa;
      get_lineage_map_loop table ids' tree taxa (<[obs_id := lineage]> lineage_map)
  end.

Definition get_lineage_map (table : Table) (tree : option Clade)
    (taxa : option (list Clade)) : result (gmap string Lineage) :=
  get_lineage_map_loop table (observation_ids table) tree taxa ∅.

(** The loop of [get_counts] over [table.nonzero()]. *)
Fixpoint get_counts_loop (cells : list (string * string * Z))
    (lineage_map : gmap string Lineage)
    (counts : gmap string (list CountElement))
  : result (gmap string (list CountElement)) :=
  match cells with
  | [] => Ok counts
  | (obs_id, samp_id, value) :: cells' =>
      lineage ←
        (match lineage_map !! obs_id with
         | Some l => Ok l
         | None => Raise (KeyError obs_id)
         end : result Lineage);
      let seq_var :=
        if match_nucleotides samp_id then Some (mkSequencingVariant samp_id)
        else None in
      let count_elem := mkCountElement value lineage seq_var in
      get_counts_loop cells' lineage_map
        (<[samp_id := default [] (counts !! samp_id) ++ [count_elem]]> counts)
  end.

(** [get_counts], from the loaded table and the tree read from the tree
    file, [None] when [get_tree_filename] finds none. *)
Definition get_counts (table : Table) (tree : option Clade)
  : result (gmap string (list CountElement)) :=
  let taxa := get_tree_taxa <$> tree in
  lineage_map ← get_lineage_map table tree taxa;
  get_counts_loop (nonzero table) lineage_map ∅.

(** *** What the lineage read from the tree keeps *)




(** *** File names *)

(** [re.match('(.*?)_', s)], by its group 1: the text before the first
    underscore, when no line break comes before it (a dot matches no line
    break). *)
Fixpoint match_biom_id (s : string) : option string :=
  match s with
  | EmptyString => None
  | String c s' =>
      if decide (c = "_"%char) then Some EmptyString
      else if decide (c = "010"%char) then None
      else String c <$> match_biom_id s'
  end.

(** [os.path.basename] of posixpath: what follows the last slash; [tail]
    is what follows the last slash read so far. *)
Fixpoint basename_loop (s tail : string) : string :=
  match s with
  | EmptyString => tail
  | String c s' =>
      if decide (c = "/"%char) then basename_loop s' s'
      else basename_loop s' tail
  end.

Definition basename (p : string) : string := basename_loop p p.

Definition get_proc_id_from_biom (biom_path : string) : option string :=
  match_biom_id (basename biom_path).

(** An [os.DirEntry]. *)
Record DirEntry := mkDirEntry {
  entry_name : string;
  is_file : bool
}.

(** [s.startswith(p)] *)
Definition startswith (s p : string) : bool := String.prefix p s.

(** [s.endswith(suffix)] *)
Fixpoint endswith (s suffix : string) : bool :=
  if String.eqb s suffix then true
  else match s with
       | EmptyString => false
       | String _ s' => endswith s' suffix
       end.

(** The loop of [get_tree_filename] over the entries that
    [os.scandir(path)] yields: the name of the first file that fits is
    returned. *)
Fixpoint scan_entries (entries : list DirEntry) (biom_id : string)
  : option string :=
  match entries with
  | [] => None
  | entry :: entries' =>
      if is_file entry && startswith (entry_name entry) biom_id
         && endswith (entry_name entry) ".tre"
      then Some (entry_name entry)
      else scan_entries entries' biom_id
  end.

(** [get_tree_filename]: [inl] is the message of the [Exception] raised for
    a file name without biom id. *)
Definition get_tree_filename (entries : list DirEntry) (biom_file : string)
  : string + option string :=
  match match_biom_id biom_file with
  | None => inl "No biom_id could be detected in the given biom filename."
  | Some biom_id => inr (scan_entries entries biom_id)
  end.

(** No character of [s] is [c]. *)
Fixpoint free_of (c : ascii) (s : string) : Prop :=
  match s with
  | EmptyString => True
  | String c' s' => c' <> c /\ free_of c s'
  end.

End CountParser.

(** ** debug_tools/profile_get_lineage_from_tree.py: from a path to a
      lineage *)

Module ProfilePaths.
Import Phylo ProfileLineage.
Import CountParser (is_digit, is_word, span).

(** The [name] group of this file's [taxon_name_re] at the start of [s]:
    the prefix (a word character and two underscores), an optional opening
    bracket, word characters and hyphens, an optional closing bracket. *)
Definition profile_match_name (s : string) : option (string * string) :=
  match s with
  | String c (String "_" (String "_" r)) =>
      if is_word c then
        let '(open_, r1) :=
          match r with
          | String "[" r' => ("["%string, r')
          | _ => (EmptyString, r)
          end in
        let '(body, r2) :=
          span (fun x => is_word x || bool_decide (x = "-"%char)) r1 in
        let '(close_, r3) :=
          match r2 with
          | String "]" r' => ("]"%string, r')
          | _ => (EmptyString, r2)
          end in
        Some (String c (String "_" (String "_" (open_ +:+ body +:+ close_))), r3)
      else None
  | _ => None
  end.

(** [taxon_name_re.match] at the start of [s], the optional branch length
    first. *)
Definition profile_match_taxon_name (s : string) : option (string * string) :=
  match span (fun x => is_digit x || bool_decide (x = "."%char)) s with
  | (String _ _, String ":" r) =>
      match profile_match_name r with
      | Some m => Some m
      | None => profile_match_name s
      end
  | _ => profile_match_name s
  end.

(** [taxon_name_re.finditer(s)], each match given by its [name] group. *)
Fixpoint profile_finditer_names (fuel : nat) (s : string) : list string :=
  match fuel with
  | 0 => []
  | S fuel' =>
      match s with
      | EmptyString => []
      | String _ s' =>
          match profile_match_taxon_name s with
          | Some (nm, rest) => nm :: profile_finditer_names fuel' rest
          | None => profile_finditer_names fuel' s'
          end
      end
  end.

Definition profile_taxon_names (s : string) : list string :=
  profile_finditer_names (String.length s) s.

(** [tree.get_terminals()]: the clades without children, in preorder. *)
Definition get_terminals (tree : Clade) : list Clade :=
  filter (fun c => clades c = []) (nodes tree).

(** [x in s] for a character [x]. *)
Fixpoint contains (x : ascii) (s : string) : bool :=
  match s with
  | EmptyString => false
  | String c s' => bool_decide (c = x) || contains x s'
  end.

(** The generator of [generate_asv_clades], run to its end over the
    terminals [l]: [x in clade.name] raises for a clade without name. *)
Fixpoint asv_filter (l : list Clade) : result (list Clade) :=
  match l with
  | [] => Ok []
  | clade :: l' =>
      match name clade with
      | None => Raise (TypeError "argument of type 'NoneType' is not iterable")
      | Some n =>
          rest ← asv_filter l';
          Ok (if existsb (fun x => contains x n) ["T"; "A"; "G"; "C"]%char
              then clade :: rest else rest)
      end
  end.

Definition generate_asv_clades (tree : Clade) : result (list Clade) :=
  asv_filter (get_terminals tree).

(** [{clade.name: clade for clade in asvs}]; the clades that
    [generate_asv_clades] yields have a name. *)
Definition asv_clades_dict (asvs : list Clade) : gmap string Clade :=
  foldl (fun d clade =>
           match name clade with
           | Some n => <[n := clade]> d
           | None => d
           end) ∅ asvs.

(** [get_lineage_from_path]; [path] is [None] when [get_path] returned
    [None]. *)
Definition get_lineage_from_path (path : option (list Clade))
  : option (list string) :=
  match path with
  | None | Some [] => None
  | Some path =>
      Some (foldl (fun lineage clade =>
                     match name clade with
                     | None | Some EmptyString => lineage
                     | Some n =>
                         foldl (fun lineage taxon => taxon :: lineage)
                           lineage (profile_taxon_names n)
                     end) [] path)
  end.

(** The taxon names found in the name of a clade. *)
Definition clade_taxa (clade : Clade) : list string :=
  profile_taxon_names (default EmptyString (name clade)).

(** Every clade of [path] but the last has the next one as its entry in
    [parents]. *)
Fixpoint linked (parents : gmap nat Clade) (path : list Clade) : Prop :=
  match path with
  | a :: ((b :: _) as rest) => parents !! ident a = Some b /\ linked parents rest
  | _ => True
  end.

End ProfilePaths.

(** ** Further inputs *)

Module Inputs.
Import Pandas Phylo CountParser.

(** A long-format table with one classified observation and one whose
    lineage is missing at every rank (the all-[None] lineage of an
    observation that could not be resolved). *)
Definition unresolved_df : DataFrame :=
  mkDataFrame [L "sample_id"; L "count"; L "kingdom"; L "phylum"] LNone
    [ [Int 1; Int 5; Str "k__Bacteria"; Str "p__Firmicutes"];
      [Int 1; Int 3; NaN; NaN] ].

Definition bacteroides : list string :=
  ["k__Bacteria"; "p__Bacteroidetes"; "c__Bacteroidia"; "o__Bacteroidales";
   "f__Bacteroidaceae"; "g__Bacteroides"; "s__"].

(** A table with taxonomy metadata: a sequence variant counted in sample
    [sample1] and an OTU counted in sample [Gut.1]. *)
Definition variant_table : Table :=
  mkTable ["TACGGAGGATCC"; "4479944"]
    (Some (<["TACGGAGGATCC" := Some bacteroides]>
             (<["4479944" := Some bacteroides]> ∅)))
    [("TACGGAGGATCC", "sample1", 5%Z); ("4479944", "Gut.1", 3%Z)].

(** A table without observation metadata. *)
Definition bare_table : Table :=
  mkTable ["TACGGAGGATCC"] None [("TACGGAGGATCC", "sample1", 5%Z)].

(** ((TACGGAGGATCC,GGCC)0.9:g__Bacteroides,TTTT)k__Bacteria; *)
Definition small_tree : Clade :=
  mkClade 0 (Some "k__Bacteria")
    [ mkClade 1 (Some "0.9:g__Bacteroides")
        [ mkClade 2 (Some "TACGGAGGATCC") []; mkClade 3 (Some "GGCC") [] ];
      mkClade 4 (Some "TTTT") [] ].

(** Two tables that differ in the brackets of a phylum label. *)
Definition bracketed_df : DataFrame :=
  mkDataFrame [L "sample_id"; L "count"; L "kingdom"; L "phylum"] LNone
    [ [Int 1; Int 5; Str "k__Bacteria"; Str "p__[Firmicutes]"];
      [Int 1; Int 2; Str "k__Bacteria"; Str "p__Firmicutes"] ].

Definition plain_df : DataFrame :=
  mkDataFrame [L "sample_id"; L "count"; L "kingdom"; L "phylum"] LNone
    [ [Int 1; Int 5; Str "k__Bacteria"; Str "p__Firmicutes"];
      [Int 1; Int 2; Str "k__Bacteria"; Str "p__Firmicutes"] ].

(** The directory of the test experiment 101. *)
Definition experiment_101 : list DirEntry :=
  [ mkDirEntry "56522_reference-hit.biom" true;
    mkDirEntry "56522_insertion_tree.relabelled.tre" true;
    mkDirEntry "prep_data.json" true ].

End Inputs.

(** * Properties *)

(** ** Grouping and summing *)

Section GroupBy.
Import Pandas.


#[global] Instance sumZ_perm : Proper ((≡ₚ) ==> (=)) sumZ.
Proof.
  intros a b Hperm.
  induction Hperm as [|x a b _ IH|x y a|a b c _ IH1 _ IH2]; simpl; lia.
Qed.

#[global] Instance sum_values_perm : Proper ((≡ₚ) ==> (=)) sum_values.
Proof. intros a b Hperm. unfold sum_values. by rewrite Hperm. Qed.

Lemma insert_sorted_perm x l : insert_sorted x l ≡ₚ x :: l.
Proof.
  induction l as [|y l IH]; simpl; [done|].
  destruct (key_compare x.1 y.1); try done.
  rewrite IH. apply perm_swap.
Qed.

Lemma sort_groups_perm l : sort_groups l ≡ₚ l.
Proof.
  induction l as [|x l IH]; simpl; [done|].
  by rewrite insert_sorted_perm, IH.
Qed.

Lemma filter_ext_in {A} (P Q : A -> Prop) `{!forall x, Decision (P x)}
    `{!forall x, Decision (Q x)} (l : list A) :
  (forall x, x ∈ l -> P x <-> Q x) -> filter P l = filter Q l.
Proof.
  induction l as [|x l IH]; intros Hext; [done|].
  rewrite !filter_cons.
  rewrite IH by (intros y Hy; apply Hext; by right).
  destruct (Hext x ltac:(by left)).
  repeat case_decide; tauto || done.
Qed.

Lemma filter_none {A} (P : A -> Prop) `{!forall x, Decision (P x)} (l : list A) :
  (forall x, x ∈ l -> ~ P x) -> filter P l = [].
Proof.
  induction l as [|x l IH]; intros Hno; [done|].
  rewrite filter_cons_False by (apply Hno; by left).
  apply IH. intros y Hy. apply Hno. by right.
Qed.

Lemma sum_values_cons kv kvs : sum_values (kv :: kvs) = (kv.2 + sum_values kvs)%Z.
Proof. done. Qed.

Lemma sum_values_filter_split (P Q : list cell * Z -> Prop)
    `{!forall x, Decision (P x)} `{!forall x, Decision (Q x)} kvs :
  (forall kv, P kv -> Q kv -> False) ->
  sum_values (filter (fun kv => P kv \/ Q kv) kvs)
  = (sum_values (filter P kvs) + sum_values (filter Q kvs))%Z.
Proof.
  intros Hdisj. induction kvs as [|kv kvs IH]; [done|].
  rewrite !filter_cons. specialize (Hdisj kv).
  repeat case_decide; rewrite ?sum_values_cons, IH; lia || tauto.
Qed.

Section Totals.
Context (P : list cell -> Prop) `{!forall k, Decision (P k)}.

(** Over distinct keys, the per-key totals add up to the sum of the values
    filed under these keys. *)
Lemma sum_values_totals kvs ks :
  NoDup ks ->
  sum_values (filter (fun kv => P kv.1) ((fun k => (k, total_for k kvs)) <$> ks))
  = sum_values (filter (fun kv => P kv.1 /\ kv.1 ∈ ks) kvs).
Proof.
  induction 1 as [|k ks Hk _ IH].
  - rewrite (filter_none _ kvs); [done|].
    intros kv _ [_ Hin]. by apply elem_of_nil in Hin.
  - rewrite fmap_cons, filter_cons. simpl.
    rewrite (filter_ext_in _
               (fun kv => (P kv.1 /\ kv.1 = k) \/ (P kv.1 /\ kv.1 ∈ ks)) kvs).
    2:{ intros kv _. rewrite elem_of_cons. tauto. }
    rewrite sum_values_filter_split.
    2:{ intros kv [_ Heq] [_ Hin]. by rewrite Heq in Hin. }
    rewrite <- IH. case_decide as HP.
    + rewrite sum_values_cons. simpl. f_equal.
      unfold total_for. f_equal. apply filter_ext_in.
      intros kv _. split; [intros ->; done | tauto].
    + rewrite (filter_none _ kvs); [done|].
      intros kv _ [HP' Heq]. by rewrite Heq in HP'.
Qed.

(** Summing by key keeps the sum of the values whose key satisfies [P]. *)
Lemma sum_values_sum_by kvs :
  sum_values (filter (fun kv => P kv.1) (sum_by kvs))
  = sum_values (filter (fun kv => P kv.1) kvs).
Proof.
  unfold sum_by. rewrite sort_groups_perm.
  rewrite sum_values_totals by apply NoDup_remove_dups.
  f_equal. apply filter_ext_in. intros kv Hkv.
  rewrite elem_of_remove_dups. split; [tauto|].
  intros HP. split; [done|]. apply list_elem_of_fmap. by exists kv.
Qed.

End Totals.

Lemma elem_of_sum_by kvs k v :
  (k, v) ∈ sum_by kvs <-> k ∈ kvs.*1 /\ v = total_for k kvs.
Proof.
  unfold sum_by. rewrite sort_groups_perm, list_elem_of_fmap.
  setoid_rewrite elem_of_remove_dups. split.
  - intros (k' & [= -> ->] & Hk). done.
  - intros [Hk ->]. by exists k.
Qed.


End GroupBy.

(** ** Columns and cells *)

Section Frames.
Import Pandas.

Lemma get_loc_lookup c l i : get_loc c l = Some i -> l !! i = Some c.
Proof.
  revert i. induction l as [|c' l IH]; intros i; simpl; [done|].
  case_decide as Hc; [intros [= <-]; by subst|].
  destruct (get_loc c l); simpl; [|done].
  intros [= <-]. simpl. by apply IH.
Qed.

Lemma get_loc_elem c l : c ∈ l -> is_Some (get_loc c l).
Proof.
  induction l as [|c' l IH]; intros Hin; [by apply elem_of_nil in Hin|].
  simpl. case_decide; [by eexists|].
  apply elem_of_cons in Hin as [?|Hin]; [done|].
  destruct (IH Hin) as [i ->]. by eexists.
Qed.

Lemma get_loc_not_elem c l : c ∉ l -> get_loc c l = None.
Proof.
  intros Hc. destruct (get_loc c l) as [i|] eqn:E; [|done].
  apply get_loc_lookup, list_elem_of_lookup_2 in E. done.
Qed.

Lemma get_loc_NoDup l i c : NoDup l -> l !! i = Some c -> get_loc c l = Some i.
Proof.
  intros Hnd Hi. destruct (get_loc_elem c l) as [j Hj].
  { by eapply list_elem_of_lookup_2. }
  rewrite Hj. f_equal.
  eapply NoDup_lookup; eauto using get_loc_lookup.
Qed.

Lemma get_loc_app_l c l1 l2 : c ∈ l1 -> get_loc c (l1 ++ l2) = get_loc c l1.
Proof.
  induction l1 as [|c' l1 IH]; intros Hin; [by apply elem_of_nil in Hin|].
  simpl. case_decide; [done|].
  apply elem_of_cons in Hin as [?|Hin]; [done|]. by rewrite IH.
Qed.

Lemma get_loc_app_r c l1 l2 :
  c ∉ l1 -> get_loc c (l1 ++ l2) = (fun i => length l1 + i) <$> get_loc c l2.
Proof.
  induction l1 as [|c' l1 IH]; intros Hin; simpl.
  - by destruct (get_loc c l2).
  - apply not_elem_of_cons in Hin as [Hne Hin].
    case_decide; [done|]. rewrite IH by done.
    by destruct (get_loc c l2).
Qed.

Lemma cell_at_fmap (f : label -> cell) l c : c ∈ l -> cell_at l (f <$> l) c = f c.
Proof.
  intros Hin. unfold cell_at.
  destruct (get_loc_elem c l Hin) as [i Hi]. rewrite Hi.
  apply get_loc_lookup in Hi. by rewrite list_lookup_fmap, Hi.
Qed.

Lemma cell_at_not_elem l r c : c ∉ l -> cell_at l r c = NaN.
Proof. intros Hc. unfold cell_at. by rewrite get_loc_not_elem. Qed.

Lemma cell_at_app_l l1 l2 (r1 r2 : list cell) c :
  c ∈ l1 -> length r1 = length l1 ->
  cell_at (l1 ++ l2) (r1 ++ r2) c = cell_at l1 r1 c.
Proof.
  intros Hin Hlen. unfold cell_at. rewrite get_loc_app_l by done.
  destruct (get_loc c l1) as [i|] eqn:E; [|done].
  apply get_loc_lookup, lookup_lt_Some in E.
  rewrite lookup_app_l by lia. done.
Qed.

Lemma cell_at_app_r l1 l2 (r1 r2 : list cell) c :
  c ∉ l1 -> length r1 = length l1 ->
  cell_at (l1 ++ l2) (r1 ++ r2) c = cell_at l2 r2 c.
Proof.
  intros Hin Hlen. unfold cell_at. rewrite get_loc_app_r by done.
  destruct (get_loc c l2) as [i|]; simpl; [|done].
  rewrite lookup_app_r by lia. do 2 f_equal. lia.
Qed.

(** Reading a row through the labels of its own columns gives the row. *)
Lemma select_id l (r : list cell) :
  NoDup l -> length r = length l -> cell_at l r <$> l = r.
Proof.
  intros Hnd Hlen. apply list_eq. intros i. rewrite list_lookup_fmap.
  destruct (l !! i) as [c|] eqn:E; simpl.
  - unfold cell_at. rewrite (get_loc_NoDup l i c) by done.
    apply lookup_lt_Some in E.
    destruct (lookup_lt_is_Some_2 r i) as [x Hx]; [lia|]. by rewrite Hx.
  - apply lookup_ge_None in E. symmetry. apply lookup_ge_None. lia.
Qed.

Lemma group_key_app cols a b row :
  group_key cols (a ++ b) row = group_key cols a row ++ group_key cols b row.
Proof. unfold group_key. by rewrite fmap_app. Qed.

Lemma length_group_key cols by_ row : length (group_key cols by_ row) = length by_.
Proof. unfold group_key. by rewrite length_fmap. Qed.

Lemma has_na_app a b : has_na (a ++ b) = has_na a || has_na b.
Proof. unfold has_na. apply existsb_app. Qed.

Lemma has_na_false k : has_na k = false <-> NaN ∉ k.
Proof.
  unfold has_na. induction k as [|c k IH]; simpl.
  - split; [intros _ Hin; by apply elem_of_nil in Hin | done].
  - rewrite not_elem_of_cons, orb_false_iff, IH.
    destruct c; simpl; intuition congruence.
Qed.

End Frames.

(** ** The aggregation, step by step *)

Section Aggregation.
Import Pandas TaxonMerger.

Lemma bind_Ok {A B} (a : A) (f : A -> result B) : Ok a ≫= f = f a.
Proof. done. Qed.

Lemma bind_Ok_inv {A B} (m : result A) (f : A -> result B) b :
  m ≫= f = Ok b -> exists a, m = Ok a /\ f a = Ok b.
Proof. destruct m as [a|e]; [by exists a | done]. Qed.

Lemma filter_fmap {A B} (f : A -> B) (P : B -> Prop) `{!forall x, Decision (P x)}
    (l : list A) :
  filter P (f <$> l) = f <$> filter (fun x => P (f x)) l.
Proof.
  induction l as [|x l IH]; [done|].
  rewrite fmap_cons, !filter_cons, IH. by case_decide.
Qed.

Lemma filter_all {A} (P : A -> Prop) `{!forall x, Decision (P x)} (l : list A) :
  Forall P l -> filter P l = l.
Proof.
  induction 1 as [|x l Hx _ IH]; [done|].
  by rewrite filter_cons_True, IH.
Qed.

(** The summed values of the kept rows whose key satisfies [P], read off the
    rows. *)
Lemma sum_values_keyed_rows (P : list cell -> Prop) `{!forall k, Decision (P k)}
    df by_ :
  sum_values (filter (fun kv => P kv.1) (keyed_rows df by_))
  = sumZ (count_of (columns df)
            <$> filter (fun row => has_na (group_key (columns df) by_ row) = false
                                   /\ P (group_key (columns df) by_ row))
                  (data df)).
Proof.
  unfold keyed_rows, sum_values.
  rewrite filter_fmap, <- list_fmap_compose, list_filter_filter.
  f_equal.
  rewrite (filter_ext_in _
             (fun row => has_na (group_key (columns df) by_ row) = false
                         /\ P (group_key (columns df) by_ row)))
    by (intros; simpl; tauto).
  done.
Qed.

Lemma total_for_keyed_rows df by_ k :
  has_na k = false ->
  total_for k (keyed_rows df by_) = group_total df by_ k.
Proof.
  intros Hk. unfold total_for, group_total.
  etrans; [exact (sum_values_keyed_rows (fun k' => k' = k) df by_)|].
  do 2 f_equal. apply filter_ext_in. intros row _.
  split; [tauto|]. intros <-. done.
Qed.

Lemma elem_of_keyed_rows_keys df by_ k :
  k ∈ (keyed_rows df by_).*1
  <-> exists row, row ∈ data df
                  /\ has_na (group_key (columns df) by_ row) = false
                  /\ k = group_key (columns df) by_ row.
Proof.
  unfold keyed_rows. rewrite <- list_fmap_compose, list_elem_of_fmap.
  setoid_rewrite list_elem_of_filter. simpl. split.
  - intros (row & -> & Hna & Hrow). by exists row.
  - intros (row & Hrow & Hna & ->). by exists row.
Qed.

Lemma columns_normalized cb df : columns (normalized cb df) = columns df.
Proof. by destruct cb. Qed.


Lemma index_lookup x l i : index x l = Some i -> l !! i = Some x.
Proof.
  revert i. induction l as [|y l IH]; intros i; simpl; [done|].
  case_decide; [intros [= <-]; by subst|].
  destruct (index x l); simpl; [|done].
  intros [= <-]. simpl. by apply IH.
Qed.

Lemma required_levels level idx :
  index level recognized_taxon_levels = Some idx ->
  let required := take (S idx) recognized_taxon_levels in
  level ∈ required /\ length required = S idx /\ "count" ∉ required.
Proof.
  intros Hidx. apply index_lookup in Hidx.
  assert (idx < 7) by (apply lookup_lt_Some in Hidx; done).
  cbv zeta. split; [|split].
  - apply elem_of_take. exists idx. split; [done | lia].
  - rewrite length_take. unfold recognized_taxon_levels. simpl length. lia.
  - intros (i & Hi & _)%elem_of_take.
    apply list_elem_of_lookup_2 in Hi.
    revert Hi. apply (bool_decide_unpack (_ ∉ _)). vm_compute. exact I.
Qed.

End Aggregation.

(** ** The hierarchical block *)

Section Collapse.
Import Pandas TaxonMerger.

Lemma elem_of_delete_ne {A} (l : list A) i x c :
  l !! i = Some x -> c ∈ l -> c <> x -> c ∈ delete i l.
Proof.
  intros Hi (j & Hj)%list_elem_of_lookup Hne.
  assert (j <> i) by (intros ->; congruence).
  destruct (decide (j < i)).
  - apply (list_elem_of_lookup_2 _ j). by rewrite list_lookup_delete_lt.
  - destruct j as [|j]; [lia|].
    apply (list_elem_of_lookup_2 _ j). rewrite list_lookup_delete_ge by lia. done.
Qed.

Lemma xs_multi key level s :
  2 <= length (levels s) ->
  xs key level s
  = match get_loc level (levels s) with
    | None => Raise (KeyError "level")
    | Some i =>
        match filter (fun kv => default NaN (kv.1 !! i) = key) (entries s) with
        | [] => Raise (KeyError "xs")
        | found =>
            Ok (mkSummed (delete i (levels s))
                  ((fun kv => (delete i kv.1, kv.2)) <$> found))
        end
    end.
Proof.
  unfold xs. destruct (levels s) as [|? [|? ?]]; simpl; [lia | lia | done].
Qed.

Lemma groupby_sum_Ok_inv df by_ s :
  groupby_sum df by_ = Ok s ->
  by_ <> [] /\ Forall (fun c => c ∈ columns df) by_
  /\ s = mkSummed by_ (sum_by (keyed_rows df by_)).
Proof.
  unfold groupby_sum. destruct by_ as [|c by_]; [done|].
  case_decide; [|done]. intros [= <-]. done.
Qed.

Lemma reset_index_Ok_inv name s d :
  reset_index name s = Ok d -> NoDup (levels s) /\ d = to_frame name s.
Proof. unfold reset_index. case_decide; [|done]. intros [= <-]. done. Qed.

Context (df : DataFrame) (name : label) (gc : list label)
  (required : list string) (level dummy : string).

#[local] Abbreviation cs := (columns df).
#[local] Abbreviation cols := (gc ++ (L <$> required)).
#[local] Abbreviation kvs := (keyed_rows df cols).
#[local] Abbreviation summed := (mkSummed cols (sum_by kvs)).
#[local] Abbreviation new_df := (to_frame name summed).
#[local] Abbreviation out_cols := (cols ++ [L "count"]).

Context (Hgc : gc <> []) (Hnd : NoDup cols) (Hcount : L "count" ∉ cols)
  (Hlevel : level ∈ required).

Lemma level_in_cols : L level ∈ cols.
Proof. apply elem_of_app. right. apply list_elem_of_fmap. by exists level. Qed.

Lemma level_not_grouping : L level ∉ gc.
Proof.
  apply NoDup_app in Hnd as (_ & Hdisj & _). intros Hin.
  apply (Hdisj _ Hin). apply list_elem_of_fmap. by exists level.
Qed.

Lemma level_loc :
  exists i, get_loc (L level) cols = Some i /\ cols !! i = Some (L level).
Proof.
  destruct (get_loc_elem _ _ level_in_cols) as [i Hi].
  exists i. eauto using get_loc_lookup.
Qed.

Lemma length_cols_ge : 2 <= length cols.
Proof.
  rewrite length_app, length_fmap.
  destruct gc; [done|]. destruct required; [by apply elem_of_nil in Hlevel|].
  simpl. lia.
Qed.

Lemma NoDup_out_cols : NoDup out_cols.
Proof.
  apply NoDup_app. split; [done|]. split; [|apply NoDup_singleton].
  intros c Hc ->%list_elem_of_singleton. done.
Qed.

Lemma key_level row i :
  cols !! i = Some (L level) ->
  default NaN (group_key cs cols row !! i) = cell_at cs row (L level).
Proof. intros Hi. unfold group_key. by rewrite list_lookup_fmap, Hi. Qed.

Lemma key_take row :
  take (length gc) (group_key cs cols row) = group_key cs gc row.
Proof.
  rewrite group_key_app. apply take_app_length'.
  by rewrite length_group_key.
Qed.

Lemma entries_inv k v :
  (k, v) ∈ sum_by kvs ->
  exists row, row ∈ data df /\ has_na (group_key cs cols row) = false
              /\ k = group_key cs cols row /\ v = total_for k kvs.
Proof.
  intros [(row & ? & ? & ?)%elem_of_keyed_rows_keys ?]%elem_of_sum_by.
  by exists row.
Qed.

Lemma entries_row row :
  row ∈ data df -> has_na (group_key cs cols row) = false ->
  (group_key cs cols row, group_total df cols (group_key cs cols row))
    ∈ sum_by kvs.
Proof.
  intros Hrow Hna. apply elem_of_sum_by. split.
  - apply elem_of_keyed_rows_keys. by exists row.
  - by rewrite total_for_keyed_rows.
Qed.

Lemma cell_at_out_level (k : list cell) v i :
  cols !! i = Some (L level) -> length k = length cols ->
  cell_at out_cols (k ++ [Int v]) (L level) = default NaN (k !! i).
Proof.
  intros Hi Hlen. rewrite cell_at_app_l by (done || apply level_in_cols).
  unfold cell_at. by rewrite (get_loc_NoDup cols i).
Qed.

(** The two ways the block ends: no entry carries the dummy label, or the
    entries that do are regrouped and appended. *)
Lemma collapse_unknown_inv new_df1 i :
  get_loc (L level) cols = Some i ->
  collapse_unknown name level (Str dummy) gc summed new_df = Ok new_df1 ->
  let found :=
    filter (fun kv => default NaN (kv.1 !! i) = Str dummy) (sum_by kvs) in
  let unknown :=
    to_frame name
      (mkSummed (delete i cols) ((fun kv => (delete i kv.1, kv.2)) <$> found)) in
  (found = [] /\ new_df1 = new_df)
  \/ (found <> [] /\ NoDup gc
      /\ new_df1
         = append (rows_ne (L level) (Str dummy) new_df)
             (to_frame name (mkSummed gc (sum_by (keyed_rows unknown gc))))).
Proof.
  intros Hi H. cbv zeta. unfold collapse_unknown in H.
  rewrite xs_multi in H by apply length_cols_ge.
  simpl levels in H. simpl entries in H. rewrite Hi in H.
  destruct (filter _ (sum_by kvs)) as [|kv found] eqn:Hfound.
  - left. by injection H as <-.
  - right. split; [done|].
    apply bind_Ok_inv in H as (s & (_ & _ & ->)%groupby_sum_Ok_inv & H).
    apply bind_Ok_inv in H as (new_rows & (Hndgc & ->)%reset_index_Ok_inv & H).
    injection H as <-. done.
Qed.

Lemma has_na_grouping row :
  has_na (group_key cs cols row) = false -> has_na (group_key cs gc row) = false.
Proof.
  rewrite group_key_app, has_na_app. by intros [? _]%orb_false_iff.
Qed.

Lemma unknown_group_key row v i :
  cols !! i = Some (L level) ->
  group_key (delete i cols ++ [L "count"]) gc
    (delete i (group_key cs cols row) ++ [Int v])
  = group_key cs gc row.
Proof.
  intros Hi. unfold group_key. rewrite <- list_fmap_delete.
  apply Forall_fmap_ext_1, Forall_forall. intros c Hc.
  assert (c ∈ delete i cols) as Hdel.
  { apply (elem_of_delete_ne _ _ (L level)); [done | |].
    - apply elem_of_app. by left.
    - intros ->. by apply level_not_grouping. }
  rewrite cell_at_app_l by (done || by rewrite length_fmap).
  by apply cell_at_fmap.
Qed.

Lemma unknown_count_of row v i :
  count_of (delete i cols ++ [L "count"])
    (delete i (group_key cs cols row) ++ [Int v]) = v.
Proof.
  unfold count_of, group_key. rewrite <- list_fmap_delete.
  rewrite cell_at_app_r.
  - reflexivity.
  - intros Hin%list_elem_of_delete_inv. done.
  - by rewrite length_fmap.
Qed.

Lemma unknown_keyed_rows i (found : list (list cell * Z)) :
  cols !! i = Some (L level) ->
  Forall (fun kv => exists row, has_na (group_key cs cols row) = false
                                /\ kv.1 = group_key cs cols row) found ->
  keyed_rows
    (to_frame name
       (mkSummed (delete i cols) ((fun kv => (delete i kv.1, kv.2)) <$> found)))
    gc
  = (fun kv => (take (length gc) kv.1, kv.2)) <$> found.
Proof.
  intros Hi Hfound. unfold keyed_rows, to_frame. simpl.
  rewrite filter_all.
  - rewrite <- !list_fmap_compose. apply Forall_fmap_ext_1.
    eapply Forall_impl; [exact Hfound|].
    intros [k v] (row & Hna & Hk). simpl in *. subst k.
    by rewrite key_take, unknown_group_key, unknown_count_of.
  - rewrite <- list_fmap_compose. apply Forall_fmap.
    eapply Forall_impl; [exact Hfound|].
    intros [k v] (row & Hna & Hk). simpl in *. subst k.
    rewrite unknown_group_key by done. by apply has_na_grouping.
Qed.

Lemma sum_values_fmap_key (g : list cell -> list cell) l :
  sum_values ((fun kv => (g kv.1, kv.2)) <$> l) = sum_values l.
Proof. unfold sum_values. by rewrite <- list_fmap_compose. Qed.

Lemma found_total i gk :
  cols !! i = Some (L level) ->
  total_for gk
    ((fun kv => (take (length gc) kv.1, kv.2))
       <$> filter (fun kv => default NaN (kv.1 !! i) = Str dummy) (sum_by kvs))
  = bucket_total df cols gc (L level) (Str dummy) gk.
Proof.
  intros Hi. unfold total_for.
  rewrite filter_fmap, sum_values_fmap_key, list_filter_filter. simpl.
  etrans; [exact (sum_values_sum_by
                    (fun k => take (length gc) k = gk
                              /\ default NaN (k !! i) = Str dummy) kvs)|].
  etrans; [exact (sum_values_keyed_rows
                    (fun k => take (length gc) k = gk
                              /\ default NaN (k !! i) = Str dummy) df cols)|].
  unfold bucket_total. do 2 f_equal. apply filter_ext_in. intros row _.
  by rewrite key_take, key_level.
Qed.

Lemma fmap_const_replicate {A B} (f : A -> B) (x : B) (l : list A) :
  (forall c, c ∈ l -> f c = x) -> f <$> l = replicate (length l) x.
Proof.
  induction l as [|c l IH]; intros Hf; [done|].
  rewrite fmap_cons, (Hf c) by (by left). simpl. f_equal.
  apply IH. intros c' Hc'. apply Hf. by right.
Qed.

(** A regrouped row, read through the columns of [new_df]: its rank cells
    are missing. *)
Lemma appended_row (gk : list cell) T :
  NoDup gc -> length gk = length gc ->
  cell_at (gc ++ [L "count"]) (gk ++ [Int T]) <$> out_cols
  = gk ++ replicate (length required) NaN ++ [Int T].
Proof.
  intros Hndgc Hlen.
  assert (L "count" ∉ gc) as Hcgc.
  { intros Hin. apply Hcount, elem_of_app. by left. }
  rewrite !fmap_app, <- app_assoc. f_equal; [|f_equal].
  - trans (cell_at gc gk <$> gc); [|by apply select_id].
    apply Forall_fmap_ext_1, Forall_forall. intros c Hc.
    by rewrite cell_at_app_l.
  - rewrite <- (length_fmap L required). apply fmap_const_replicate.
    intros c Hc. apply cell_at_not_elem.
    intros [Hin| ->%list_elem_of_singleton]%elem_of_app.
    + apply NoDup_app in Hnd as (_ & Hdisj & _). by apply (Hdisj c).
    + apply Hcount, elem_of_app. by right.
  - simpl. by rewrite cell_at_app_r.
Qed.

Lemma found_inv i :
  Forall (fun kv => exists row, has_na (group_key cs cols row) = false
                                /\ kv.1 = group_key cs cols row)
    (filter (fun kv => default NaN (kv.1 !! i) = Str dummy) (sum_by kvs)).
Proof.
  apply Forall_forall. intros [k v] [_ Hkv]%list_elem_of_filter.
  apply entries_inv in Hkv as (row & _ & Hna & -> & _). by exists row.
Qed.

Lemma new_df_shape :
  Forall (fun r => length r = length out_cols) (data new_df).
Proof.
  simpl. apply Forall_fmap, Forall_forall. intros [k v] Hkv.
  apply entries_inv in Hkv as (row & _ & _ & -> & _). simpl.
  by rewrite !length_app, length_group_key, length_app.
Qed.

Lemma new_df_row row :
  row ∈ data df -> has_na (group_key cs cols row) = false ->
  group_key cs cols row ++ [Int (group_total df cols (group_key cs cols row))]
    ∈ data new_df.
Proof.
  intros Hrow Hna. simpl. apply list_elem_of_fmap.
  eexists. split; [|by apply entries_row]. done.
Qed.

Section Outcome.
Context (new_df1 : DataFrame)
  (Hcollapse :
     collapse_unknown name level (Str dummy) gc summed new_df = Ok new_df1).

(** The rows that carry the dummy label end in one row per value of the
    grouping columns, without rank labels. *)
Lemma collapse_dummy_row row :
  row ∈ data df -> has_na (group_key cs cols row) = false ->
  cell_at cs row (L level) = Str dummy ->
  group_key cs gc row ++ replicate (length required) NaN
    ++ [Int (bucket_total df cols gc (L level) (Str dummy) (group_key cs gc row))]
    ∈ data new_df1.
Proof.
  intros Hrow Hna Hdummy. destruct level_loc as (i & Hloc & Hi).
  pose proof (entries_row row Hrow Hna) as Hentry.
  assert (Hfound :
    (group_key cs cols row, group_total df cols (group_key cs cols row))
      ∈ filter (fun kv => default NaN (kv.1 !! i) = Str dummy) (sum_by kvs)).
  { apply list_elem_of_filter. split; [|done]. simpl. by rewrite key_level. }
  destruct (collapse_unknown_inv new_df1 i Hloc Hcollapse)
    as [[Hnil _]|(_ & Hndgc & ->)].
  { rewrite Hnil in Hfound. by apply elem_of_nil in Hfound. }
  unfold append. simpl. apply elem_of_app. right.
  rewrite unknown_keyed_rows by (done || apply found_inv).
  apply list_elem_of_fmap.
  exists (group_key cs gc row
            ++ [Int (bucket_total df cols gc (L level) (Str dummy)
                       (group_key cs gc row))]).
  split.
  - rewrite appended_row; [done | done | by rewrite length_group_key].
  - apply list_elem_of_fmap.
    exists (group_key cs gc row,
            bucket_total df cols gc (L level) (Str dummy) (group_key cs gc row)).
    split; [done|]. apply elem_of_sum_by. split.
    + rewrite <- list_fmap_compose. apply list_elem_of_fmap.
      eexists. split; [|exact Hfound]. simpl. by rewrite key_take.
    + by rewrite found_total.
Qed.

(** The rows with another label keep their group. *)
Lemma collapse_other_row row :
  row ∈ data df -> has_na (group_key cs cols row) = false ->
  cell_at cs row (L level) <> Str dummy ->
  group_key cs cols row ++ [Int (group_total df cols (group_key cs cols row))]
    ∈ data new_df1.
Proof.
  intros Hrow Hna Hdummy. destruct level_loc as (i & Hloc & Hi).
  pose proof (new_df_row row Hrow Hna) as Hin.
  destruct (collapse_unknown_inv new_df1 i Hloc Hcollapse)
    as [[_ ->]|(_ & _ & ->)]; [done|].
  unfold append, rows_ne. simpl. apply elem_of_app. left.
  apply list_elem_of_filter. split; [|exact Hin].
  rewrite (cell_at_out_level _ _ i) by (done || by rewrite length_group_key).
  by rewrite key_level.
Qed.

(** No row of the result carries the dummy label. *)
Lemma collapse_no_dummy orow :
  orow ∈ data new_df1 -> cell_at out_cols orow (L level) <> Str dummy.
Proof.
  intros Horow. destruct level_loc as (i & Hloc & Hi).
  destruct (collapse_unknown_inv new_df1 i Hloc Hcollapse)
    as [[Hnil ->]|(_ & Hndgc & ->)].
  - simpl in Horow. apply list_elem_of_fmap in Horow as ([k v] & -> & Hkv).
    pose proof Hkv as (row & _ & _ & -> & _)%entries_inv. simpl.
    rewrite (cell_at_out_level _ _ i) by (done || by rewrite length_group_key).
    intros Heq.
    exact (filter_nil_not_elem_of _ _ (group_key cs cols row, v) Hnil Heq Hkv).
  - unfold append, rows_ne in Horow. simpl in Horow.
    apply elem_of_app in Horow as [Horow|Horow].
    + by apply list_elem_of_filter in Horow as [? _].
    + apply list_elem_of_fmap in Horow as (r0 & -> & _).
      rewrite cell_at_fmap by (apply elem_of_app; left; apply level_in_cols).
      rewrite cell_at_not_elem; [done|].
      intros [Hin| Heq%list_elem_of_singleton]%elem_of_app.
      * by apply level_not_grouping.
      * apply Hcount. rewrite <- Heq. apply level_in_cols.
Qed.

Lemma collapse_shape :
  columns new_df1 = out_cols
  /\ Forall (fun r => length r = length out_cols) (data new_df1).
Proof.
  destruct level_loc as (i & Hloc & Hi).
  pose proof new_df_shape as Hnew.
  destruct (collapse_unknown_inv new_df1 i Hloc Hcollapse)
    as [[_ ->]|(_ & _ & ->)]; [done|].
  split; [done|]. unfold append, rows_ne. simpl.
  apply Forall_app. split.
  - apply Forall_forall. intros r [_ Hr]%list_elem_of_filter.
    rewrite Forall_forall in Hnew. by apply Hnew.
  - apply Forall_fmap, Forall_forall. intros r _. simpl. by rewrite length_fmap.
Qed.

End Outcome.

(** *** The total count of the block's result *)



Lemma entries_length :
  Forall (fun kv => length kv.1 = length cols) (sum_by kvs).
Proof.
  apply Forall_forall. intros [k v] (row & _ & _ & -> & _)%entries_inv.
  simpl. by rewrite length_group_key.
Qed.





End Collapse.

(** ** Rows with the dummy label under the sum policy *)

Section SumPolicy.
Import Pandas TaxonMerger.

Lemma select_self d labels out :
  columns d = labels -> NoDup labels ->
  Forall (fun r => length r = length labels) (data d) ->
  select labels d = Ok out ->
  columns out = labels /\ data out = data d.
Proof.
  intros Hcols Hnd Hlen. unfold select. case_decide; [|done].
  intros [= <-]. split; [done|]. simpl. rewrite Hcols.
  rewrite <- (list_fmap_id (data d)) at 2.
  apply Forall_fmap_ext_1. eapply Forall_impl; [exact Hlen|].
  intros r Hr. by apply select_id.
Qed.

(** With the simple grouping, the group of a row that carries the dummy
    label is the bucket of its grouping-column values. *)
Lemma group_total_bucket df gc level (dummy : cell) row :
  has_na (group_key (columns df) (gc ++ [level]) row) = false ->
  cell_at (columns df) row level = dummy ->
  group_total df (gc ++ [level]) (group_key (columns df) (gc ++ [level]) row)
  = bucket_total df (gc ++ [level]) gc level dummy
      (group_key (columns df) gc row).
Proof.
  intros Hna Hdummy. unfold group_total, bucket_total.
  do 2 f_equal. apply filter_ext_in. intros row' _.
  rewrite !group_key_app in *. simpl in *. rewrite Hdummy in *. split.
  - intros [Hgk Hc]%app_inj_tail. by rewrite Hgk, Hc.
  - intros (_ & -> & ->). done.
Qed.

Lemma group_key_singleton cols c row :
  group_key cols [c] row = [cell_at cols row c].
Proof. done. Qed.

Lemma aggregate_sum_inv df tl gc dv cb (simple : bool) out dd idx :
  gc <> [] ->
  process_dummy_values dv default_dummy_dict = Ok dd ->
  index (lower tl) recognized_taxon_levels = Some idx ->
  aggregate_at_taxon_level df tl gc dv "sum" cb simple = Ok out ->
  let by_ :=
    if simple then gc ++ [L (lower tl)]
    else gc ++ (L <$> take (S idx) recognized_taxon_levels) in
  let summed :=
    mkSummed by_ (sum_by (keyed_rows (normalized cb df) by_)) in
  let new_df := to_frame (columns_name df) summed in
  exists new_df1,
    NoDup by_
    /\ (if simple then Ok new_df
        else collapse_unknown (columns_name df) (lower tl)
               (Str (default (lower tl) (dd !! lower tl))) gc summed new_df)
       = Ok new_df1
    /\ select (by_ ++ [L "count"]) new_df1 = Ok out.
Proof.
  intros Hgc Hdd Hidx H. unfold aggregate_at_taxon_level in H. cbv zeta in H.
  rewrite Hdd, Hidx, !bind_Ok in H.
  case_decide as Hpresent; [done|].
  destruct (filter _ (take (S idx) _)) as [|? ?] eqn:Hreq in H; [|done].
  apply bind_Ok_inv in H as (gc0 & Hgc0 & H).
  destruct gc as [|g gc']; [done|].
  destruct (filter _ (g :: gc')) as [|? ?] eqn:Hgcs in Hgc0; [|done].
  injection Hgc0 as <-.
  apply bind_Ok_inv in H as (summed & (_ & _ & ->)%groupby_sum_Ok_inv & H).
  apply bind_Ok_inv in H as (new_df & (Hnd & ->)%reset_index_Ok_inv & H).
  apply bind_Ok_inv in H as (new_df1 & Hnew1 & H).
  apply bind_Ok_inv in H as (new_df2 & Hnew2 & H).
  unfold handle_missing in Hnew2. case_decide; [|done].
  injection Hnew2 as <-.
  cbv zeta. exists new_df1. split; [exact Hnd|]. split; [|exact H].
  by destruct simple.
Qed.


(** C2, as the code has it: under the sum policy the rows of a group that
    carry the dummy label at the target rank end in one output row per value
    of the grouping columns, whose count is the sum of their counts, with
    either grouping strategy.  With the hierarchical grouping that row has no
    rank labels at all (every rank column from kingdom to the target rank is
    missing) and no output row carries the dummy label; with the simple
    grouping that row carries the dummy label.  A row with any other label
    ends in the output row of its group, labels kept. *)
Theorem dummy_rows_collapse_per_grouping_key
    (df : DataFrame) (taxon_level : string) (grouping_cols : list label)
    (dummy_values : list (string * string))
    (check_brackets simple_aggregation : bool) (out : DataFrame)
    (dummy_dict : gmap string string) (taxon_level_index : nat) :
  grouping_cols <> [] ->
  L "count" ∉ grouping_cols ->
  process_dummy_values dummy_values default_dummy_dict = Ok dummy_dict ->
  index (lower taxon_level) recognized_taxon_levels = Some taxon_level_index ->
  aggregate_at_taxon_level df taxon_level grouping_cols dummy_values "sum"
    check_brackets simple_aggregation = Ok out ->
  let level := L (lower taxon_level) in
  let dummy :=
    Str (default (lower taxon_level) (dummy_dict !! lower taxon_level)) in
  let df' := normalized check_brackets df in
  let cs := columns df' in
  let by_ :=
    if simple_aggregation then grouping_cols ++ [level]
    else grouping_cols ++ (L <$> take (S taxon_level_index) recognized_taxon_levels) in
  (forall row,
     row ∈ data df' -> has_na (group_key cs by_ row) = false ->
     cell_at cs row level = dummy ->
     group_key cs grouping_cols row
       ++ (if simple_aggregation then [dummy]
           else replicate (S taxon_level_index) NaN)
       ++ [Int (bucket_total df' by_ grouping_cols level dummy
                  (group_key cs grouping_cols row))]
       ∈ data out)
  /\ (forall row,
        row ∈ data df' -> has_na (group_key cs by_ row) = false ->
        cell_at cs row level <> dummy ->
        group_key cs by_ row ++ [Int (group_total df' by_ (group_key cs by_ row))]
          ∈ data out)
  /\ (simple_aggregation = false ->
      forall orow, orow ∈ data out -> cell_at (columns out) orow level <> dummy).
Proof.
  intros Hgc Hcount Hdd Hidx H.
  destruct (aggregate_sum_inv _ _ _ _ _ _ _ _ _ Hgc Hdd Hidx H)
    as (new_df1 & Hnd & Hnew & Hsel).
  destruct (required_levels _ _ Hidx) as (Hlevel & Hlen & Hcreq).
  cbv zeta. destruct simple_aggregation.
  - (* simple grouping *)
    injection Hnew as <-.
    change (grouping_cols ++ [L (lower taxon_level)])
      with (grouping_cols ++ (L <$> [lower taxon_level])) in *.
    assert (Hc : L "count" ∉ grouping_cols ++ (L <$> [lower taxon_level])).
    { intros [?|Hin]%elem_of_app; [done|].
      apply list_elem_of_singleton in Hin. injection Hin as Hin.
      apply Hcreq. by rewrite Hin. }
    apply select_self in Hsel as [Hcols Hdata];
      [|done | by apply NoDup_out_cols | by apply new_df_shape].
    rewrite Hdata. split; [|split; [|done]].
    + intros row Hrow Hna Hdummy.
      pose proof (new_df_row _ (columns_name df) _ [lower taxon_level] row
                    Hrow Hna) as Hin.
      change (L <$> [lower taxon_level]) with [L (lower taxon_level)]
        in Hin, Hna |- *.
      rewrite (group_total_bucket _ _ _ _ _ Hna Hdummy) in Hin.
      rewrite group_key_app, group_key_singleton, Hdummy, <- app_assoc in Hin.
      exact Hin.
    + intros row Hrow Hna _. by apply new_df_row.
  - (* hierarchical grouping *)
    assert (Hc : L "count"
                 ∉ grouping_cols
                   ++ (L <$> take (S taxon_level_index) recognized_taxon_levels)).
    { intros [?|Hin]%elem_of_app; [done|].
      apply list_elem_of_fmap in Hin as (r & [= <-] & Hr). done. }
    destruct (collapse_shape _ _ _ _ _ _ Hgc Hnd Hc Hlevel _ Hnew)
      as [Hcols1 Hshape].
    apply select_self in Hsel as [Hcols Hdata];
      [|done | by apply NoDup_out_cols | done].
    rewrite Hdata, Hcols. split; [|split].
    + intros row Hrow Hna Hdummy.
      pose proof (collapse_dummy_row _ _ _ _ _ _ Hgc Hnd Hc Hlevel _ Hnew
                    row Hrow Hna Hdummy) as Hin.
      by rewrite Hlen in Hin.
    + intros row Hrow Hna Hdummy.
      by apply (collapse_other_row _ _ _ _ _ _ Hgc Hnd Hc Hlevel _ Hnew).
    + intros _ orow Horow.
      by apply (collapse_no_dummy _ _ _ _ _ _ Hgc Hnd Hc Hlevel _ Hnew).
Qed.

End SumPolicy.

(** ** Rank names are read in lower case *)

Section CaseInsensitive.
Import Pandas TaxonMerger.

Lemma ascii_lower_idemp (c : ascii) : ascii_lower (ascii_lower c) = ascii_lower c.
Proof. destruct c as [[] [] [] [] [] [] [] []]; reflexivity. Qed.

Lemma lower_idemp (s : string) : lower (lower s) = lower s.
Proof.
  induction s as [|c s IH]; simpl; [reflexivity|].
  by rewrite ascii_lower_idemp, IH.
Qed.

Lemma process_dummy_values_lower_keys dummy_values dummy_dict :
  process_dummy_values (lower_keys dummy_values) dummy_dict
  = process_dummy_values dummy_values dummy_dict.
Proof.
  revert dummy_dict.
  induction dummy_values as [|[key value] rest IH]; intros dummy_dict;
    simpl; [reflexivity|].
  rewrite lower_idemp.
  destruct (dummy_dict !! lower key); [apply IH | reflexivity].
Qed.

(** C10: [taxon_level] and the keys of [dummy_values] are lowercased before
    they are validated or looked up, so a call with any casing of the rank
    names returns (or raises) exactly what the call with the lowercased names
    does; in particular whether rank validation fails depends on the
    lowercased names only. *)
Theorem aggregate_rank_names_case_insensitive
    (df : DataFrame) (taxon_level : string) (grouping_cols : list label)
    (dummy_values : list (string * string)) (missing_method : string)
    (check_brackets simple_aggregation : bool) :
  aggregate_at_taxon_level df taxon_level grouping_cols dummy_values
    missing_method check_brackets simple_aggregation
  = aggregate_at_taxon_level df (lower taxon_level) grouping_cols
      (lower_keys dummy_values) missing_method check_brackets simple_aggregation.
Proof.
  unfold aggregate_at_taxon_level.
  rewrite lower_idemp, process_dummy_values_lower_keys.
  reflexivity.
Qed.

End CaseInsensitive.

(** ** The aggregation on the test fixtures *)

Section OnFixtures.
Import Pandas TaxonMerger Fixtures Inputs.

(** C4: on the 12-row reference table, aggregated at genus with the seven
    grouping keys, [simple_aggregation=True] and the sum policy, the result
    is exactly the expected frame of [test_simple_sum]: group (1,1,1,1,1,1,1)
    with g__:4, g__O:1, g__P:1; group (2,2,2,2,2,2,2) with g__:4, g__P:2;
    group (3,3,3,3,3,3,2) with g__:2, g__P:4. *)
Theorem simple_sum_reference_scenario :
  aggregate_at_taxon_level df "genus" grouping_cols [] "sum" true true
  = Ok simple_sum.
Proof. vm_compute. reflexivity. Qed.

(** The expected frame of [test_complex_sum_genus]. *)
Lemma complex_sum_genus_reference :
  aggregate_at_taxon_level df "genus" grouping_cols [] "sum" true false
  = Ok complex_sum_genus.
Proof. vm_compute. reflexivity. Qed.

(** The expected frame of [test_complex_sum_class]. *)
Lemma complex_sum_class_reference :
  aggregate_at_taxon_level df "class" grouping_cols [] "sum" true false
  = Ok complex_sum_class.
Proof. vm_compute. reflexivity. Qed.

(** The expected frame of [test_custom_dummy_values]. *)
Lemma simple_sum_custom_dummy_reference :
  aggregate_at_taxon_level temp_df "genus" grouping_cols [("genus", "CUSTOM")]
    "sum" true true
  = Ok simple_sum_custom_dummy.
Proof. vm_compute. reflexivity. Qed.

(** [test_unrecognized_dummy_value_key] and [test_unrecognized_taxon_level]. *)
Lemma unrecognized_names_raise :
  aggregate_at_taxon_level df "genus" grouping_cols [("gibberish", "g__")]
    "sum" true true = Raise (ValueError "dummy_values")
  /\ aggregate_at_taxon_level df "gibberish" grouping_cols [] "sum" true true
     = Raise (ValueError "gibberish").
Proof. split; vm_compute; reflexivity. Qed.

(** [test_no_taxon_level_in_df], [test_not_all_required_taxon_cols_in_df] and
    [test_not_all_required_grouping_cols_in_df]. *)
Lemma missing_columns_raise :
  aggregate_at_taxon_level (rename "genus" "no_genus" df) "genus" grouping_cols
    [] "sum" true true = Raise (NoTaxonLevelPresent ["genus"])
  /\ aggregate_at_taxon_level (rename "kingdom" "no_kingdom" df) "genus"
       grouping_cols [] "sum" true true = Raise (NoTaxonLevelPresent ["kingdom"])
  /\ aggregate_at_taxon_level (rename "experiment_id" "NONE" df) "genus"
       grouping_cols [] "sum" true true = Raise (ValueError "grouping_cols").
Proof. repeat split; vm_compute; reflexivity. Qed.

(** C1, at a table with a row whose rank labels are missing: the input
    counts sum to 8, the output of the sum policy to 5, with either grouping
    strategy.  The row with the missing label is in no group. *)
Theorem sum_policy_drops_rows_with_missing_rank :
  total_count unresolved_df = 8%Z /\
  forall simple_aggregation : bool,
    exists out,
      aggregate_at_taxon_level unresolved_df "phylum" [L "sample_id"] []
        "sum" true simple_aggregation = Ok out
      /\ total_count out = 5%Z.
Proof.
  split; [reflexivity|].
  intros [|]; eexists; (split; [vm_compute; reflexivity | reflexivity]).
Qed.

(** C3, on the reference table at genus: the table has 3 grouping-key values
    and 4 distinct lineage prefixes up to genus, and the [zero_counts] result
    has 8 rows, the groups of the summed table, none of them inserted. *)
Theorem zero_counts_does_not_densify :
  length (remove_dups (group_key (columns df) grouping_cols <$> data df)) = 3
  /\ length (remove_dups
               (group_key (columns df)
                  [L "kingdom"; L "phylum"; L "class"; L "order"; L "family";
                   L "genus"] <$> data df)) = 4
  /\ exists out,
       aggregate_at_taxon_level df "genus" grouping_cols [] "zero_counts"
         true false = Ok out
       /\ length (data out) = 8
       /\ length (filter (fun row => cell_at (columns out) row (L "count") = Int 0)
                    (data out)) = 4
       /\ Forall (fun row => cell_at (columns out) row (L "genus") = Str "g__"
                             <-> cell_at (columns out) row (L "count") = Int 0)
            (data out).
Proof.
  split; [vm_compute; reflexivity|].
  split; [vm_compute; reflexivity|].
  eexists. split; [vm_compute; reflexivity|].
  split; [reflexivity|].
  split; [vm_compute; reflexivity|].
  repeat constructor; vm_compute; intros; congruence.
Qed.

(** With the simple grouping at genus, [zero_counts] fails on
    [new_df[required_taxon_levels]]: the frame has no column for the coarser
    ranks. *)
Lemma zero_counts_simple_raises :
  aggregate_at_taxon_level df "genus" grouping_cols [] "zero_counts" true true
  = Raise (KeyError "not in index").
Proof. vm_compute. reflexivity. Qed.

(** C5, on the reference table: the hierarchical sum at genus has 7 rows;
    aggregating that result again, the same way, returns the 4 rows with a
    genus label and loses the 3 unclassified rows. *)
Theorem reaggregation_drops_unclassified_rows :
  exists out1 out2,
    aggregate_at_taxon_level df "genus" grouping_cols [] "sum" true false
      = Ok out1
    /\ aggregate_at_taxon_level out1 "genus" grouping_cols [] "sum" true false
      = Ok out2
    /\ length (data out1) = 7
    /\ data out2 = take 4 (data out1)
    /\ ~ (data out2 ≡ₚ data out1).
Proof.
  do 2 eexists.
  split; [vm_compute; reflexivity|].
  split; [vm_compute; reflexivity|].
  split; [reflexivity|].
  split; [reflexivity|].
  intros Hperm. apply Permutation_length in Hperm. discriminate Hperm.
Qed.

(** C6, on the reference table, whose eleven leftmost columns stand left of
    ['kingdom']: with an empty [grouping_cols] the grouping columns become
    [df.columns.names[:11]], the single name [None] of the column index, and
    the call fails in [groupby]. *)
Theorem default_grouping_cols_are_index_names :
  get_loc (L "kingdom") (columns df) = Some 11
  /\ take 11 (columns df)
     = grouping_cols ++ [L "lineage_id"; L "seq_var_id"; L "count"; L "id"]
  /\ default_grouping_cols df = Ok [LNone]
  /\ forall simple_aggregation : bool,
       aggregate_at_taxon_level df "genus" [] [] "sum" true simple_aggregation
       = Raise GroupKeyError.
Proof.
  split; [reflexivity|].
  split; [reflexivity|].
  split; [reflexivity|].
  intros [|]; vm_compute; reflexivity.
Qed.

End OnFixtures.

(** ** Count extraction on example tables *)

Section OnTables.
Import Phylo CountParser Inputs.

(** C7, on a table with a sequence variant counted in [sample1] and an OTU
    counted in [Gut.1]: the variant's cell carries no [SequencingVariant],
    the OTU's cell carries one, holding the sample id. *)
Theorem seq_var_is_read_from_sample_id :
  match_nucleotides "TACGGAGGATCC" = true
  /\ match_nucleotides "4479944" = false
  /\ exists counts,
       get_counts variant_table None = Ok counts
       /\ seq_var <$> default [] (counts !! "sample1") = [None]
       /\ seq_var <$> default [] (counts !! "Gut.1")
          = [Some (mkSequencingVariant "Gut.1")].
Proof.
  split; [reflexivity|].
  split; [reflexivity|].
  eexists. split; [vm_compute; reflexivity|].
  split; vm_compute; reflexivity.
Qed.

(** C9, on a table without observation metadata and without a tree file:
    the extraction raises, from [tree.find_any] on [None]. *)
Theorem get_counts_without_tree_raises :
  get_counts bare_table None = Raise (AttributeError "find_any").
Proof. vm_compute. reflexivity. Qed.


End OnTables.

(** ** The parent index of a tree *)

Section ParentIndex.
Import Phylo ProfileLineage.

Lemma Clade_forall_ind (P : Clade -> Prop) :
  (forall i n cs, Forall P cs -> P (mkClade i n cs)) -> forall c, P c.
Proof.
  intros H. fix IH 1. intros [i n cs]. apply H.
  induction cs as [|c cs IHcs]; constructor; [apply IH | apply IHcs].
Qed.

Lemma nodes_unfold c : nodes c = c :: (clades c ≫= nodes).
Proof. by destruct c. Qed.

Lemma level_traverse_nodes fuel Q :
  length (Q ≫= nodes) <= fuel -> level_traverse fuel Q ≡ₚ Q ≫= nodes.
Proof.
  revert Q. induction fuel as [|fuel IH]; intros Q Hlen.
  - destruct Q as [|v Q]; [done|].
    rewrite bind_cons, nodes_unfold in Hlen. simpl in Hlen. lia.
  - destruct Q as [|v Q]; [done|].
    rewrite bind_cons, nodes_unfold in Hlen |- *. simpl in Hlen |- *.
    rewrite length_app in Hlen.
    apply perm_skip. rewrite IH.
    + rewrite bind_app. apply Permutation_app_comm.
    + rewrite bind_app, length_app. lia.
Qed.

Lemma find_clades_level_nodes tree : find_clades_level tree ≡ₚ nodes tree.
Proof.
  unfold find_clades_level.
  rewrite level_traverse_nodes; rewrite bind_singleton; done.
Qed.

(** The children of all clades are the clades below the root. *)
Lemma children_nodes_perm c : nodes c ≫= clades ≡ₚ clades c ≫= nodes.
Proof.
  induction c as [i n cs IH] using Clade_forall_ind.
  rewrite nodes_unfold, bind_cons. cbn [clades].
  induction IH as [|x cs IHx _ IHcs]; [done|].
  rewrite !bind_cons, bind_app, IHx, nodes_unfold.
  rewrite <- !app_comm_cons. apply perm_skip.
  rewrite (Permutation_app_swap_app cs), IHcs. done.
Qed.

Lemma all_parents_edges tree :
  all_parents tree
  = foldl (fun m kv => <[kv.1 := kv.2]> m) ∅
      (find_clades_level tree ≫= child_edges).
Proof.
  unfold all_parents. generalize (∅ : gmap nat Clade).
  induction (find_clades_level tree) as [|clade l IH]; intros m; [done|].
  simpl. rewrite IH, foldl_app. unfold child_edges at 2.
  by rewrite foldl_fmap.
Qed.

Lemma child_edges_keys (l : list Clade) :
  (l ≫= child_edges).*1 = ident <$> (l ≫= clades).
Proof.
  induction l as [|clade l IH]; [done|].
  rewrite !bind_cons, !fmap_app, IH. f_equal.
  unfold child_edges. by rewrite <- list_fmap_compose.
Qed.

Lemma foldl_insert_notin (l : list (nat * Clade)) (m : gmap nat Clade) k :
  k ∉ l.*1 ->
  foldl (fun m kv => <[kv.1 := kv.2]> m) m l !! k = m !! k.
Proof.
  revert m. induction l as [|[k' v'] l IH]; intros m Hk; [done|].
  simpl in *. apply not_elem_of_cons in Hk as [Hne Hk].
  rewrite IH by done. by rewrite lookup_insert_ne.
Qed.

Lemma foldl_insert_in (l : list (nat * Clade)) (m : gmap nat Clade) k v :
  NoDup l.*1 -> (k, v) ∈ l ->
  foldl (fun m kv => <[kv.1 := kv.2]> m) m l !! k = Some v.
Proof.
  revert m. induction l as [|[k' v'] l IH]; intros m Hnd Hin.
  - by apply elem_of_nil in Hin.
  - simpl in *. apply NoDup_cons in Hnd as [Hk' Hnd].
    apply elem_of_cons in Hin as [Heq|Hin].
    + injection Heq as <- <-.
      rewrite foldl_insert_notin by done. apply lookup_insert_eq.
    + by apply IH.
Qed.

Context (tree : Clade) (Hid : NoDup (ident <$> nodes tree)).

Lemma edge_keys_perm :
  (find_clades_level tree ≫= child_edges).*1 ≡ₚ ident <$> (clades tree ≫= nodes).
Proof.
  rewrite child_edges_keys, find_clades_level_nodes, children_nodes_perm.
  done.
Qed.

Lemma all_parents_root : all_parents tree !! ident tree = None.
Proof.
  rewrite all_parents_edges, foldl_insert_notin; [done|].
  rewrite edge_keys_perm.
  rewrite nodes_unfold in Hid. simpl in Hid.
  by apply NoDup_cons in Hid as [? _].
Qed.

Lemma all_parents_child p c :
  p ∈ nodes tree -> c ∈ clades p -> all_parents tree !! ident c = Some p.
Proof.
  intros Hp Hc. rewrite all_parents_edges.
  apply foldl_insert_in.
  - rewrite edge_keys_perm.
    rewrite nodes_unfold in Hid. simpl in Hid.
    by apply NoDup_cons in Hid as [_ ?].
  - apply list_elem_of_bind. exists p. split.
    + unfold child_edges. apply list_elem_of_fmap. by exists c.
    + by rewrite find_clades_level_nodes.
Qed.

Lemma child_in_nodes p c : p ∈ nodes tree -> c ∈ clades p -> c ∈ nodes tree.
Proof.
  intros Hp Hc. rewrite nodes_unfold. apply elem_of_cons. right.
  rewrite <- children_nodes_perm. apply list_elem_of_bind. eauto.
Qed.

Lemma all_parents_non_root n :
  n ∈ nodes tree -> n <> tree ->
  exists p, all_parents tree !! ident n = Some p /\ p ∈ nodes tree /\ n ∈ clades p.
Proof.
  intros Hn Hne. rewrite nodes_unfold in Hn.
  apply elem_of_cons in Hn as [?|Hn]; [done|].
  rewrite <- children_nodes_perm in Hn.
  apply list_elem_of_bind in Hn as (p & Hc & Hp).
  exists p. eauto using all_parents_child.
Qed.

Lemma path_to_root_in_nodes n path :
  path_to_root tree n path -> n ∈ nodes tree.
Proof.
  induction 1 as [|p c path _ IH Hc].
  - rewrite nodes_unfold. apply elem_of_cons. by left.
  - eauto using child_in_nodes.
Qed.

Lemma path_to_root_last n path :
  path_to_root tree n path -> last path = Some tree.
Proof.
  induction 1 as [|p c path Hp IH Hc]; [done|].
  destruct Hp; done.
Qed.

Lemma at_depth_path d n :
  at_depth tree d n ->
  exists path, path_to_root tree n path /\ length path = S d.
Proof.
  induction 1 as [|d p c _ (path & Hpath & Hlen) Hc].
  - exists [tree]. split; [constructor | done].
  - exists (c :: path). split; [by econstructor | by rewrite length_cons, Hlen].
Qed.

(** Every clade of the tree has a depth. *)
Lemma nodes_at_depth n : n ∈ nodes tree -> exists d, at_depth tree d n.
Proof.
  assert (Hsub : forall t d0, at_depth tree d0 t ->
                   forall m, m ∈ nodes t -> exists d, at_depth tree d m).
  { induction t as [i nm cs IH] using Clade_forall_ind.
    intros d0 Ht m Hm. rewrite nodes_unfold in Hm. simpl in Hm.
    apply elem_of_cons in Hm as [->|Hm]; [by exists d0|].
    apply list_elem_of_bind in Hm as (c & Hm & Hc).
    rewrite Forall_forall in IH.
    apply (IH c Hc (S d0)); [|done]. by econstructor. }
  apply (Hsub tree 0). constructor.
Qed.

Lemma get_path_loop_path n path :
  path_to_root tree n path ->
  forall fuel acc,
    length path <= fuel ->
    get_path_loop fuel (all_parents tree) n acc = Some (acc ++ path).
Proof.
  induction 1 as [|p c path Hp IH Hc]; intros [|fuel] acc Hfuel;
    simpl in Hfuel; try lia; simpl.
  - by rewrite all_parents_root.
  - rewrite (all_parents_child p c) by eauto using path_to_root_in_nodes.
    rewrite IH by lia. by rewrite <- app_assoc.
Qed.

End ParentIndex.

(** C8: in a tree of distinct clades, the parent map built by [all_parents]
    has no entry for the root and maps every other clade to the clade it is
    a child of; and from a clade at depth [d] (a leaf of [asv_clades], in
    particular) [get_path], given more than [d] iterations, returns the
    [d+1] clades of the path from that clade up to the root, the root
    last. *)
Theorem parent_index_total (tree : Phylo.Clade)
    (Hid : NoDup (Phylo.ident <$> Phylo.nodes tree)) :
  let parents := ProfileLineage.all_parents tree in
  parents !! Phylo.ident tree = None
  /\ (forall n, n ∈ Phylo.nodes tree -> n <> tree ->
        exists p, parents !! Phylo.ident n = Some p
                  /\ p ∈ Phylo.nodes tree /\ n ∈ Phylo.clades p)
  /\ (forall seq asv_clades leaf d fuel,
        asv_clades !! seq = Some leaf ->
        Phylo.at_depth tree d leaf ->
        d < fuel ->
        exists path,
          ProfileLineage.get_path fuel seq parents asv_clades = Some (Some path)
          /\ length path = S d
          /\ head path = Some leaf
          /\ last path = Some tree
          /\ Phylo.path_to_root tree leaf path).
Proof.
  intros parents. split; [by apply all_parents_root|].
  split; [by apply all_parents_non_root|].
  intros seq asv_clades leaf d fuel Hseq Hdepth Hfuel.
  destruct (at_depth_path tree d leaf Hdepth) as (path & Hpath & Hlen).
  exists path. unfold ProfileLineage.get_path. rewrite Hseq.
  subst parents. rewrite (get_path_loop_path tree Hid leaf path Hpath) by lia.
  repeat split; eauto using path_to_root_last.
  by destruct Hpath.
Qed.

(** ** The hierarchical sum on the reference table *)

Section HierarchicalOnFixtures.
Import Pandas TaxonMerger Fixtures.

(** C2 fails on the reference table: the hierarchical sum at genus has no
    row for the lineage prefix k__A, p__C, c__F, o__I, f__L, g__ of group
    (1,1,1,1,1,1,1), although the table has rows with that prefix. *)
Lemma dummy_prefix_has_no_output_row :
  exists out,
    aggregate_at_taxon_level df "genus" grouping_cols [] "sum" true false = Ok out
    /\ dummy_genus_row ∈ data df
    /\ cell_at (columns df) dummy_genus_row (L "genus") = Str "g__"
    /\ ~ exists orow,
           orow ∈ data out
           /\ group_key (columns out) (grouping_cols ++ through_genus) orow
              = group_key (columns df) (grouping_cols ++ through_genus)
                  dummy_genus_row.
Proof.
  exists complex_sum_genus.
  split; [vm_compute; reflexivity|].
  split; [right; left|].
  split; [reflexivity|].
  intros (orow & Hin & Heq). simpl in Hin.
  repeat (apply elem_of_cons in Hin as [->|Hin]; [vm_compute in Heq; discriminate|]).
  by apply elem_of_nil in Hin.
Qed.

(** The theorem on the reference table: the rows of group (1,1,1,1,1,1,1)
    with the dummy genus end in the row without rank labels, count 4. *)
Lemma dummy_rows_collapse_on_reference :
  aggregate_at_taxon_level df "genus" grouping_cols [] "sum" true false
    = Ok complex_sum_genus
  /\ [Int 1; Int 1; Int 1; Int 1; Int 1; Int 1; Int 1;
      NaN; NaN; NaN; NaN; NaN; NaN; Int 4] ∈ data complex_sum_genus.
Proof.
  assert (H : aggregate_at_taxon_level df "genus" grouping_cols [] "sum" true false
              = Ok complex_sum_genus) by (vm_compute; reflexivity).
  split; [exact H|].
  assert (Hgc : grouping_cols <> []) by discriminate.
  assert (Hcount : L "count" ∉ grouping_cols).
  { apply (bool_decide_unpack _). vm_compute. exact I. }
  assert (Hrow : dummy_genus_row ∈ data (normalized true df)).
  { vm_compute. right. left. }
  exact (proj1 (dummy_rows_collapse_per_grouping_key df "genus" grouping_cols []
                  true false complex_sum_genus default_dummy_dict 5
                  Hgc Hcount eq_refl eq_refl H)
           dummy_genus_row Hrow eq_refl eq_refl).
Defined.

End HierarchicalOnFixtures.

(** The parent index of the small example tree, and the path from its leaf
    GGCC at depth 2. *)
Lemma parent_index_total_on_small_tree :
  NoDup (Phylo.ident <$> Phylo.nodes Inputs.small_tree)
  /\ ProfileLineage.all_parents Inputs.small_tree !! 0 = None
  /\ exists path,
       ProfileLineage.get_path 3 "GGCC"
         (ProfileLineage.all_parents Inputs.small_tree)
         {["GGCC" := Phylo.mkClade 3 (Some "GGCC") []]}
       = Some (Some path)
       /\ length path = 3.
Proof.
  assert (Hid : NoDup (Phylo.ident <$> Phylo.nodes Inputs.small_tree)).
  { apply (bool_decide_unpack _). vm_compute. exact I. }
  split; [exact Hid|].
  destruct (parent_index_total Inputs.small_tree Hid) as (Hroot & _ & Hpath).
  split; [exact Hroot|].
  destruct (Hpath "GGCC" {["GGCC" := Phylo.mkClade 3 (Some "GGCC") []]}
              (Phylo.mkClade 3 (Some "GGCC") []) 2 3) as (path & Hp & Hlen & _).
  - reflexivity.
  - eapply Phylo.at_depth_child;
      [eapply Phylo.at_depth_child; [apply Phylo.at_depth_root|]|].
    + simpl. left.
    + simpl. right. left.
  - lia.
  - exists path. split; [exact Hp | exact Hlen].
Defined.

(** * Further properties *)

(** ** The policies of the aggregation *)

Section Policies.
Import Pandas TaxonMerger.

Lemma bind_Raise {A B} (e : exn) (f : A -> result B) : Raise e ≫= f = Raise e.
Proof. done. Qed.

Lemma result_bind_assoc {A B C} (m : result A) (f : A -> result B)
    (g : B -> result C) :
  (m ≫= f) ≫= g = m ≫= (fun a => f a ≫= g).
Proof. by destruct m. Qed.

Lemma result_bind_ext {A B} (m : result A) (f g : A -> result B) :
  (forall a, m = Ok a -> f a = g a) -> m ≫= f = m ≫= g.
Proof. destruct m as [a|e]; [|done]. intros H. by apply H. Qed.

Lemma select_rows_known labels c v d :
  c ∈ labels ->
  select labels (rows_known c v d)
  = s ← select labels d; Ok (rows_known c v s).
Proof.
  intros Hc. unfold select. simpl (columns (rows_known _ _ _)).
  case_decide; [|done]. rewrite bind_Ok. f_equal.
  unfold rows_known. simpl. f_equal.
  rewrite filter_fmap. f_equal. apply filter_ext_in. intros row _.
  by rewrite cell_at_fmap.
Qed.

Lemma level_in_group_columns simple gc level idx :
  index level recognized_taxon_levels = Some idx ->
  L level ∈ group_columns simple gc level idx ++ [L "count"].
Proof.
  intros Hidx. destruct (required_levels _ _ Hidx) as (Hlevel & _ & _).
  apply elem_of_app. left. unfold group_columns.
  destruct simple; apply elem_of_app; right.
  - by apply list_elem_of_singleton.
  - apply list_elem_of_fmap. eauto.
Qed.

Lemma default_dummy_dict_dom k :
  is_Some (default_dummy_dict !! k) <-> k ∈ recognized_taxon_levels.
Proof.
  unfold default_dummy_dict. rewrite <- elem_of_dom, dom_list_to_map_L.
  rewrite elem_of_list_to_set. done.
Qed.

Lemma process_dummy_values_inv dummy_values d dd :
  process_dummy_values dummy_values d = Ok dd ->
  Forall (fun kv => is_Some (d !! lower kv.1)) dummy_values
  /\ (forall k, is_Some (dd !! k) <-> is_Some (d !! k))
  /\ (forall k, k ∉ lower <$> dummy_values.*1 -> dd !! k = d !! k)
  /\ (forall before key value after,
        dummy_values = before ++ (key, value) :: after ->
        lower key ∉ lower <$> after.*1 ->
        dd !! lower key = Some value).
Proof.
  revert d. induction dummy_values as [|[key value] rest IH]; intros d H;
    simpl in H.
  - injection H as <-. split; [constructor|]. split; [done|]. split; [done|].
    intros [|? ?] ? ? ? ?; done.
  - destruct (d !! lower key) as [old|] eqn:Hkey; [|done].
    apply IH in H as (Hall & Hdom & Hkeep & Hlast).
    assert (Hsome : forall k, is_Some (<[lower key := value]> d !! k)
                              <-> is_Some (d !! k)).
    { intros k. destruct (decide (k = lower key)) as [->|Hne].
      - rewrite lookup_insert_eq, Hkey. split; eauto.
      - by rewrite lookup_insert_ne. }
    split; [|split; [|split]].
    + constructor; [simpl; by rewrite Hkey|].
      eapply Forall_impl; [exact Hall|]. intros kv Hkv. simpl in *.
      by apply Hsome.
    + intros k. by rewrite Hdom.
    + intros k Hk. simpl in Hk. apply not_elem_of_cons in Hk as [Hne Hk].
      rewrite Hkeep by done. by rewrite lookup_insert_ne.
    + intros [|[key0 value0] before] key1 value1 after Heq Hnot;
        simpl in Heq; injection Heq as -> -> ->.
      * rewrite Hkeep by done. apply lookup_insert_eq.
      * by eapply Hlast.
Qed.

Lemma process_dummy_values_Ok_inv dummy_values dd :
  process_dummy_values dummy_values default_dummy_dict = Ok dd ->
  Forall (fun kv => lower kv.1 ∈ recognized_taxon_levels) dummy_values
  /\ (forall k, is_Some (dd !! k) <-> k ∈ recognized_taxon_levels).
Proof.
  intros (Hall & Hdom & _)%process_dummy_values_inv. split.
  - eapply Forall_impl; [exact Hall|]. intros kv Hkv. simpl in Hkv.
    by apply default_dummy_dict_dom.
  - intros k. by rewrite Hdom, default_dummy_dict_dom.
Qed.

(** [aggregate_at_taxon_level] read backwards from a returned frame. *)
Lemma aggregate_Ok_inv df tl gc dv mm cb simple out :
  aggregate_at_taxon_level df tl gc dv mm cb simple = Ok out ->
  exists dd idx gc' new_df1 new_df2,
    let by_ := group_columns simple gc' (lower tl) idx in
    let summed := mkSummed by_ (sum_by (keyed_rows (normalized cb df) by_)) in
    let dummy := Str (default (lower tl) (dd !! lower tl)) in
    process_dummy_values dv default_dummy_dict = Ok dd
    /\ index (lower tl) recognized_taxon_levels = Some idx
    /\ Forall (fun level => L level ∈ taxon_cols_present df)
         (take (S idx) recognized_taxon_levels)
    /\ match gc with
       | [] => default_grouping_cols df = Ok gc'
       | _ => gc' = gc /\ Forall (fun c => c ∈ columns df) gc
       end
    /\ by_ <> [] /\ NoDup by_
    /\ Forall (fun c => c ∈ columns df) by_
    /\ (if simple then Ok (to_frame (columns_name df) summed)
        else collapse_unknown (columns_name df) (lower tl) dummy gc' summed
               (to_frame (columns_name df) summed)) = Ok new_df1
    /\ handle_missing (columns_name df) mm (lower tl) dummy
         (take (S idx) recognized_taxon_levels) gc' summed new_df1 = Ok new_df2
    /\ select (by_ ++ [L "count"]) new_df2 = Ok out.
Proof.
  intros H. unfold aggregate_at_taxon_level in H. cbv zeta in H.
  apply bind_Ok_inv in H as (dd & Hdd & H).
  apply bind_Ok_inv in H as (idx & Hidx & H).
  destruct (index (lower tl) recognized_taxon_levels) as [idx'|] eqn:Hidx';
    [|done].
  injection Hidx as ->.
  case_decide as Hpresent; [done|].
  destruct (filter _ (take (S idx) _)) as [|? ?] eqn:Hreq in H; [|done].
  apply bind_Ok_inv in H as (gc' & Hgc' & H).
  apply bind_Ok_inv in H as (summed & (Hne & Hall & ->)%groupby_sum_Ok_inv & H).
  apply bind_Ok_inv in H as (new_df & (Hnd & ->)%reset_index_Ok_inv & H).
  apply bind_Ok_inv in H as (new_df1 & Hnew1 & H).
  apply bind_Ok_inv in H as (new_df2 & Hnew2 & H).
  exists dd, idx, gc', new_df1, new_df2. cbv zeta.
  rewrite columns_normalized in Hall.
  split; [done|]. split; [done|]. split.
  { apply Forall_forall. intros level Hlevel.
    destruct (decide (L level ∈ taxon_cols_present df)) as [|Hno]; [done|].
    exfalso. eapply filter_nil_not_elem_of; [exact Hreq| |exact Hlevel]. done. }
  split.
  { destruct gc as [|g gc0]; [done|].
    destruct (filter _ (g :: gc0)) as [|? ?] eqn:Hgcs in Hgc'; [|done].
    injection Hgc' as <-. split; [done|].
    apply Forall_forall. intros c Hc.
    destruct (decide (c ∈ columns df)) as [|Hno]; [done|].
    exfalso. eapply filter_nil_not_elem_of; [exact Hgcs| |exact Hc]. done. }
  unfold group_columns. by destruct simple.
Qed.


Lemma remove_is_sum_then_drop df tl gc dv cb simple dd :
  process_dummy_values dv default_dummy_dict = Ok dd ->
  aggregate_at_taxon_level df tl gc dv "remove" cb simple
  = s ← aggregate_at_taxon_level df tl gc dv "sum" cb simple;
    Ok (rows_known (L (lower tl)) (Str (default (lower tl) (dd !! lower tl))) s).
Proof.
  intros Hdd. unfold aggregate_at_taxon_level. cbv zeta.
  rewrite Hdd, !bind_Ok.
  destruct (index (lower tl) recognized_taxon_levels) as [idx|] eqn:Hidx;
    [|done].
  rewrite !bind_Ok. case_decide; [done|].
  destruct (filter _ (take (S idx) _)) as [|? ?]; [|done].
  rewrite result_bind_assoc. apply result_bind_ext. intros gc' _.
  rewrite result_bind_assoc. apply result_bind_ext. intros summed _.
  rewrite result_bind_assoc. apply result_bind_ext. intros new_df _.
  rewrite result_bind_assoc. apply result_bind_ext. intros new_df1 _.
  unfold handle_missing.
  case_decide; [done|]. case_decide; [|done]. case_decide; [|done].
  rewrite !bind_Ok.
  apply (select_rows_known _ (L (lower tl))).
  apply (level_in_group_columns simple gc' _ idx Hidx).
Qed.

(** the remove policy returns the frame of the sum policy without the
    rows whose target rank is the dummy label or missing. *)
Theorem remove_policy_drops_unknown_rows_of_sum
    (df : DataFrame) (taxon_level : string) (grouping_cols : list label)
    (dummy_values : list (string * string))
    (check_brackets simple_aggregation : bool)
    (dummy_dict : gmap string string) :
  process_dummy_values dummy_values default_dummy_dict = Ok dummy_dict ->
  let level := L (lower taxon_level) in
  let dummy :=
    Str (default (lower taxon_level) (dummy_dict !! lower taxon_level)) in
  aggregate_at_taxon_level df taxon_level grouping_cols dummy_values "remove"
    check_brackets simple_aggregation
  = (s ← aggregate_at_taxon_level df taxon_level grouping_cols dummy_values
           "sum" check_brackets simple_aggregation;
     Ok (rows_known level dummy s))
  /\ forall out,
       aggregate_at_taxon_level df taxon_level grouping_cols dummy_values
         "remove" check_brackets simple_aggregation = Ok out ->
       forall row, row ∈ data out ->
         cell_at (columns out) row level <> dummy
         /\ isna (cell_at (columns out) row level) = false.
Proof.
  intros Hdd level dummy.
  pose proof (remove_is_sum_then_drop df taxon_level grouping_cols dummy_values
                check_brackets simple_aggregation dummy_dict Hdd) as Heq.
  split; [exact Heq|].
  intros out Hout row Hrow. rewrite Heq in Hout.
  apply bind_Ok_inv in Hout as (s & _ & [= <-]).
  simpl in Hrow |- *. apply list_elem_of_filter in Hrow as [Hrow _].
  split.
  - intros Hd. apply Hrow. by left.
  - destruct (isna _) eqn:Hna; [|done]. exfalso. apply Hrow. by right.
Qed.

(** the columns of a returned frame are the grouping columns, then the
    rank columns that were grouped by, then ['count']. *)
Theorem output_columns
    (df : DataFrame) (taxon_level : string) (grouping_cols : list label)
    (dummy_values : list (string * string)) (missing_method : string)
    (check_brackets simple_aggregation : bool) (out : DataFrame) :
  aggregate_at_taxon_level df taxon_level grouping_cols dummy_values
    missing_method check_brackets simple_aggregation = Ok out ->
  exists taxon_level_index grouping_cols',
    index (lower taxon_level) recognized_taxon_levels = Some taxon_level_index
    /\ match grouping_cols with
       | [] => default_grouping_cols df = Ok grouping_cols'
       | _ => grouping_cols' = grouping_cols
       end
    /\ columns out
       = grouping_cols'
         ++ (if simple_aggregation then [L (lower taxon_level)]
             else L <$> take (S taxon_level_index) recognized_taxon_levels)
         ++ [L "count"]
    /\ Forall (fun row => length row = length (columns out)) (data out).
Proof.
  intros H.
  apply aggregate_Ok_inv in H
    as (dd & idx & gc' & new_df1 & new_df2 & Hdd & Hidx & Hreq & Hgc & Hne
        & Hnd & Hall & Hnew1 & Hnew2 & Hsel).
  exists idx, gc'. split; [done|]. split.
  { destruct grouping_cols; [done | by destruct Hgc]. }
  unfold select in Hsel. case_decide as Hin; [|done]. injection Hsel as <-.
  simpl. split.
  - unfold group_columns. destruct simple_aggregation; by rewrite <- app_assoc.
  - apply Forall_fmap, Forall_forall. intros row _. simpl.
    by rewrite length_fmap.
Qed.

(** a frame is returned only for valid arguments. *)
Theorem success_needs_valid_arguments
    (df : DataFrame) (taxon_level : string) (grouping_cols : list label)
    (dummy_values : list (string * string)) (missing_method : string)
    (check_brackets simple_aggregation : bool) (out : DataFrame) :
  aggregate_at_taxon_level df taxon_level grouping_cols dummy_values
    missing_method check_brackets simple_aggregation = Ok out ->
  exists taxon_level_index,
    index (lower taxon_level) recognized_taxon_levels = Some taxon_level_index
    /\ Forall (fun kv => lower kv.1 ∈ recognized_taxon_levels) dummy_values
    /\ Forall (fun level => L level ∈ columns df)
         (take (S taxon_level_index) recognized_taxon_levels)
    /\ Forall (fun c => c ∈ columns df) grouping_cols
    /\ missing_method ∈ ["sum"; "remove"; "zero_counts"].
Proof.
  intros H.
  apply aggregate_Ok_inv in H
    as (dd & idx & gc' & new_df1 & new_df2 & Hdd & Hidx & Hreq & Hgc & Hne
        & Hnd & Hall & Hnew1 & Hnew2 & Hsel).
  exists idx. split; [done|]. split.
  { by apply process_dummy_values_Ok_inv in Hdd as (? & _). }
  split.
  { eapply Forall_impl; [exact Hreq|]. intros level Hl. simpl in Hl.
    by apply list_elem_of_filter in Hl as [_ ?]. }
  split.
  { destruct grouping_cols; [constructor | by destruct Hgc]. }
  unfold handle_missing in Hnew2.
  case_decide as H1; [subst; set_solver|].
  case_decide as H2; [subst; set_solver|].
  case_decide as H3; [subst; set_solver|]. done.
Qed.

End Policies.

Section KnownRows.
Import Pandas TaxonMerger.


Context (df : DataFrame) (name : label) (gc : list label)
  (required : list string) (level dummy : string).

#[local] Abbreviation cs := (columns df).
#[local] Abbreviation cols := (gc ++ (L <$> required)).
#[local] Abbreviation kvs := (keyed_rows df cols).
#[local] Abbreviation summed := (mkSummed cols (sum_by kvs)).
#[local] Abbreviation new_df := (to_frame name summed).
#[local] Abbreviation out_cols := (cols ++ [L "count"]).
#[local] Abbreviation named i :=
  (filter (fun kv : list cell * Z => default NaN (kv.1 !! i) <> Str dummy)
     (sum_by kvs)).

Context (Hgc : gc <> []) (Hnd : NoDup cols) (Hcount : L "count" ∉ cols)
  (Hlevel : level ∈ required).




Lemma new_df_rows_inv orow :
  orow ∈ data new_df ->
  exists row,
    row ∈ data df /\ has_na (group_key cs cols row) = false
    /\ orow = group_key cs cols row
              ++ [Int (group_total df cols (group_key cs cols row))].
Proof.
  simpl. intros ([k v] & -> & Hkv)%list_elem_of_fmap.
  apply (entries_inv df gc required) in Hkv as (row & Hrow & Hna & -> & ->).
  exists row. simpl. by rewrite total_for_keyed_rows.
Qed.

(** Every row of the block's result is the row of a group with another
    label than the dummy, or the regrouped row of the rows with the dummy
    label. *)
Lemma collapse_rows_inv new_df1 orow :
  collapse_unknown name level (Str dummy) gc summed new_df = Ok new_df1 ->
  orow ∈ data new_df1 ->
  (exists row,
     row ∈ data df /\ has_na (group_key cs cols row) = false
     /\ cell_at cs row (L level) <> Str dummy
     /\ orow = group_key cs cols row
               ++ [Int (group_total df cols (group_key cs cols row))])
  \/ (exists row,
        row ∈ data df /\ has_na (group_key cs cols row) = false
        /\ cell_at cs row (L level) = Str dummy
        /\ orow = group_key cs gc row ++ replicate (length required) NaN
                  ++ [Int (bucket_total df cols gc (L level) (Str dummy)
                             (group_key cs gc row))]).
Proof.
  intros Hcollapse Horow.
  destruct (level_loc gc required level Hlevel) as (i & Hloc & Hi).
  assert (Hother : forall r, r ∈ data new_df ->
            cell_at out_cols r (L level) <> Str dummy ->
            exists row,
              row ∈ data df /\ has_na (group_key cs cols row) = false
              /\ cell_at cs row (L level) <> Str dummy
              /\ r = group_key cs cols row
                     ++ [Int (group_total df cols (group_key cs cols row))]).
  { intros r (row & Hrow & Hna & ->)%new_df_rows_inv Hne.
    exists row. repeat split; try done.
    rewrite (cell_at_out_level gc required level Hnd Hlevel _ _ i) in Hne
      by (done || by rewrite length_group_key).
    by rewrite (key_level df gc required level row i Hi) in Hne. }
  destruct (collapse_unknown_inv df name gc required level dummy Hgc Hnd Hcount
              Hlevel new_df1 i Hloc Hcollapse)
    as [[Hnil ->]|(_ & Hndgc & ->)].
  - left. apply Hother; [done|].
    simpl in Horow. apply list_elem_of_fmap in Horow as ([k v] & -> & Hkv).
    pose proof Hkv as (row & _ & _ & -> & _)%(entries_inv df gc required).
    simpl.
    rewrite (cell_at_out_level gc required level Hnd Hlevel _ _ i)
      by (done || by rewrite length_group_key).
    intros Heq.
    exact (filter_nil_not_elem_of _ _ (group_key cs cols row, v) Hnil Heq Hkv).
  - unfold append, rows_ne in Horow. simpl in Horow.
    apply elem_of_app in Horow as [Horow|Horow].
    + left. apply list_elem_of_filter in Horow as [Hne Horow].
      by apply Hother.
    + right. apply list_elem_of_fmap in Horow as (r0 & -> & Hr0).
      apply list_elem_of_fmap in Hr0 as ([gk T] & -> & HgkT).
      rewrite (unknown_keyed_rows df name gc required level Hnd Hcount Hlevel i)
        in HgkT by (done || apply found_inv).
      apply elem_of_sum_by in HgkT as [Hgk ->].
      rewrite <- list_fmap_compose in Hgk.
      apply list_elem_of_fmap in Hgk
        as ([k v] & -> & [Hdummy Hkv]%list_elem_of_filter).
      apply (entries_inv df gc required) in Hkv as (row & Hrow & Hna & -> & _).
      simpl in *.
      rewrite (key_level df gc required level row i Hi) in Hdummy.
      rewrite (key_take df gc required).
      exists row. repeat split; try done.
      rewrite (found_total df gc required level dummy i _ Hi).
      apply (appended_row gc required Hnd Hcount); [done|].
      by rewrite length_group_key.
Qed.

End KnownRows.

Section RemoveTotal.
Import Pandas TaxonMerger.


End RemoveTotal.

Section Validation.
Import Pandas TaxonMerger.

Lemma index_None x l : index x l = None <-> x ∉ l.
Proof.
  induction l as [|y l IH]; simpl.
  - split; [intros _ H; by apply elem_of_nil in H | done].
  - case_decide as Heq.
    + split; [done|]. intros H. exfalso. apply H. subst. by left.
    + rewrite not_elem_of_cons, <- IH.
      destruct (index x l); simpl; split; intros; try done; intuition congruence.
Qed.

Lemma process_dummy_values_total dummy_values d :
  Forall (fun kv => is_Some (d !! lower kv.1)) dummy_values ->
  exists dd, process_dummy_values dummy_values d = Ok dd.
Proof.
  revert d. induction dummy_values as [|[key value] rest IH]; intros d Hall.
  - by exists d.
  - apply Forall_cons in Hall as [[old Hkey] Hall]. simpl in *.
    rewrite Hkey. apply IH.
    eapply Forall_impl; [exact Hall|]. intros kv [v Hv]. simpl in *.
    destruct (decide (lower kv.1 = lower key)) as [->|Hne].
    + rewrite lookup_insert_eq. eauto.
    + rewrite lookup_insert_ne by done. eauto.
Qed.

Lemma process_dummy_values_raise dummy_values d :
  Exists (fun kv => d !! lower kv.1 = None) dummy_values ->
  process_dummy_values dummy_values d = Raise (ValueError "dummy_values").
Proof.
  revert d. induction dummy_values as [|[key value] rest IH]; intros d Hex.
  - by apply Exists_nil in Hex.
  - simpl. destruct (d !! lower key) as [old|] eqn:Hkey; [|done].
    apply IH. apply Exists_cons in Hex as [Hbad|Hex].
    + simpl in Hbad. congruence.
    + eapply Exists_impl; [exact Hex|]. intros kv Hkv. simpl in *.
      destruct (decide (lower kv.1 = lower key)) as [Heq|Hne].
      * rewrite Heq in Hkv. congruence.
      * by rewrite lookup_insert_ne.
Qed.

(** the order of the argument checks. *)
Theorem validation_order
    (df : DataFrame) (taxon_level : string) (grouping_cols : list label)
    (dummy_values : list (string * string)) (missing_method : string)
    (check_brackets simple_aggregation : bool) :
  let call :=
    aggregate_at_taxon_level df taxon_level grouping_cols dummy_values
      missing_method check_brackets simple_aggregation in
  (Exists (fun kv => lower kv.1 ∉ recognized_taxon_levels) dummy_values ->
   call = Raise (ValueError "dummy_values"))
  /\ (Forall (fun kv => lower kv.1 ∈ recognized_taxon_levels) dummy_values ->
      lower taxon_level ∉ recognized_taxon_levels ->
      call = Raise (ValueError (lower taxon_level)))
  /\ (Forall (fun kv => lower kv.1 ∈ recognized_taxon_levels) dummy_values ->
      lower taxon_level ∈ recognized_taxon_levels ->
      L (lower taxon_level) ∉ columns df ->
      call = Raise (NoTaxonLevelPresent [lower taxon_level])).
Proof.
  cbv zeta. unfold aggregate_at_taxon_level. cbv zeta.
  assert (Hok : Forall (fun kv => lower kv.1 ∈ recognized_taxon_levels)
                  dummy_values ->
                exists dd, process_dummy_values dummy_values default_dummy_dict
                           = Ok dd).
  { intros Hall. apply process_dummy_values_total.
    eapply Forall_impl; [exact Hall|]. intros kv Hkv.
    by apply default_dummy_dict_dom. }
  split; [|split].
  - intros Hex. rewrite process_dummy_values_raise; [done|].
    eapply Exists_impl; [exact Hex|]. intros kv Hkv. simpl in *.
    apply eq_None_not_Some. by rewrite default_dummy_dict_dom.
  - intros [dd ->]%Hok Hlevel. rewrite bind_Ok.
    apply index_None in Hlevel. by rewrite Hlevel.
  - intros [dd ->]%Hok Hlevel Hcol. rewrite bind_Ok.
    destruct (index (lower taxon_level) recognized_taxon_levels) as [idx|] eqn:Hidx.
    2:{ by apply index_None in Hidx. }
    rewrite bind_Ok. case_decide as Hpresent; [done|].
    unfold taxon_cols_present in Hpresent.
    by apply list_elem_of_filter in Hpresent as [_ ?].
Qed.

(** the dummy labels in use: every rank has one, a rank that
    [dummy_values] does not name keeps its default, and the last entry of
    [dummy_values] for a rank is the one in use. *)
Theorem custom_dummy_values_override_defaults
    (dummy_values : list (string * string)) (dummy_dict : gmap string string) :
  process_dummy_values dummy_values default_dummy_dict = Ok dummy_dict ->
  (forall k, is_Some (dummy_dict !! k) <-> k ∈ recognized_taxon_levels)
  /\ (forall k, k ∉ lower <$> dummy_values.*1 ->
        dummy_dict !! k = default_dummy_dict !! k)
  /\ (forall before key value after,
        dummy_values = before ++ (key, value) :: after ->
        lower key ∉ lower <$> after.*1 ->
        dummy_dict !! lower key = Some value).
Proof.
  intros H. split; [by apply process_dummy_values_Ok_inv in H as [_ ?]|].
  by apply process_dummy_values_inv in H as (_ & _ & ? & ?).
Qed.

(** with [check_brackets], two frames that are equal once the brackets
    are stripped from their rank columns give the same result. *)
Theorem brackets_do_not_change_result
    (df1 df2 : DataFrame) (taxon_level : string) (grouping_cols : list label)
    (dummy_values : list (string * string)) (missing_method : string)
    (simple_aggregation : bool) :
  normalized true df1 = normalized true df2 ->
  aggregate_at_taxon_level df1 taxon_level grouping_cols dummy_values
    missing_method true simple_aggregation
  = aggregate_at_taxon_level df2 taxon_level grouping_cols dummy_values
      missing_method true simple_aggregation.
Proof.
  intros H.
  assert (Hc : columns df1 = columns df2)
    by (apply (f_equal columns) in H; done).
  assert (Hn : columns_name df1 = columns_name df2)
    by (apply (f_equal columns_name) in H; done).
  unfold aggregate_at_taxon_level, default_grouping_cols, taxon_cols_present.
  by rewrite H, Hc, Hn.
Qed.

End Validation.

Section GroupRows.
Import Pandas TaxonMerger.

(** under the sum policy every returned row stands for rows of the
    frame: it is the row of a group, carrying the group's summed count, or
    (hierarchical grouping) the bucket of the rows of one grouping key that
    carry the dummy label. *)
Theorem sum_policy_rows_come_from_groups
    (df : DataFrame) (taxon_level : string) (grouping_cols : list label)
    (dummy_values : list (string * string))
    (check_brackets simple_aggregation : bool) (out : DataFrame)
    (dummy_dict : gmap string string) (taxon_level_index : nat) :
  grouping_cols <> [] ->
  L "count" ∉ grouping_cols ->
  process_dummy_values dummy_values default_dummy_dict = Ok dummy_dict ->
  index (lower taxon_level) recognized_taxon_levels = Some taxon_level_index ->
  aggregate_at_taxon_level df taxon_level grouping_cols dummy_values "sum"
    check_brackets simple_aggregation = Ok out ->
  let level := L (lower taxon_level) in
  let dummy :=
    Str (default (lower taxon_level) (dummy_dict !! lower taxon_level)) in
  let df' := normalized check_brackets df in
  let cs := columns df' in
  let by_ :=
    group_columns simple_aggregation grouping_cols (lower taxon_level)
      taxon_level_index in
  forall orow, orow ∈ data out ->
    (exists row,
       row ∈ data df' /\ has_na (group_key cs by_ row) = false
       /\ (simple_aggregation = false -> cell_at cs row level <> dummy)
       /\ orow = group_key cs by_ row
                 ++ [Int (group_total df' by_ (group_key cs by_ row))])
    \/ (simple_aggregation = false
        /\ exists row,
             row ∈ data df' /\ has_na (group_key cs by_ row) = false
             /\ cell_at cs row level = dummy
             /\ orow = group_key cs grouping_cols row
                       ++ replicate (S taxon_level_index) NaN
                       ++ [Int (bucket_total df' by_ grouping_cols level dummy
                                  (group_key cs grouping_cols row))]).
Proof.
  intros Hgc Hcount Hdd Hidx H.
  destruct (aggregate_sum_inv _ _ _ _ _ _ _ _ _ Hgc Hdd Hidx H)
    as (new_df1 & Hnd & Hnew & Hsel).
  destruct (required_levels _ _ Hidx) as (Hlevel & Hlen & Hcreq).
  cbv zeta. unfold group_columns. destruct simple_aggregation; intros orow Horow.
  - injection Hnew as <-.
    change (grouping_cols ++ [L (lower taxon_level)])
      with (grouping_cols ++ (L <$> [lower taxon_level])) in *.
    assert (Hc : L "count" ∉ grouping_cols ++ (L <$> [lower taxon_level])).
    { intros [?|Hin]%elem_of_app; [done|].
      apply list_elem_of_singleton in Hin. injection Hin as Hin.
      apply Hcreq. by rewrite Hin. }
    apply select_self in Hsel as [Hcols Hdata];
      [|done | by apply NoDup_out_cols | by apply new_df_shape].
    rewrite Hdata in Horow.
    apply new_df_rows_inv in Horow as (row & Hrow & Hna & ->).
    left. exists row. done.
  - assert (Hc : L "count"
                 ∉ grouping_cols
                   ++ (L <$> take (S taxon_level_index) recognized_taxon_levels)).
    { intros [?|Hin]%elem_of_app; [done|].
      apply list_elem_of_fmap in Hin as (r & [= <-] & Hr). done. }
    destruct (collapse_shape _ _ _ _ _ _ Hgc Hnd Hc Hlevel _ Hnew)
      as [Hcols1 Hshape].
    apply select_self in Hsel as [Hcols Hdata];
      [|done | by apply NoDup_out_cols | done].
    rewrite Hdata in Horow.
    destruct (collapse_rows_inv _ _ _ _ _ _ Hgc Hnd Hc Hlevel _ _ Hnew Horow)
      as [(row & ? & ? & ? & ->)|(row & ? & ? & ? & ->)].
    + left. exists row. done.
    + right. split; [done|]. exists row. by rewrite Hlen.
Qed.

End GroupRows.

Section PolicyWitnesses.
Import Pandas TaxonMerger Fixtures.

Lemma grouping_cols_not_count : L "count" ∉ grouping_cols.
Proof. apply (bool_decide_unpack _). vm_compute. exact I. Defined.


Lemma remove_policy_on_reference :
  aggregate_at_taxon_level df "genus" grouping_cols [] "remove" true true
  = (s ← aggregate_at_taxon_level df "genus" grouping_cols [] "sum" true true;
     Ok (rows_known (L "genus") (Str "g__") s)).
Proof.
  exact (proj1 (remove_policy_drops_unknown_rows_of_sum df "genus"
                  grouping_cols [] true true default_dummy_dict eq_refl)).
Defined.

Lemma output_columns_on_reference :
  columns simple_sum = grouping_cols ++ [L "genus"] ++ [L "count"].
Proof.
  assert (H : aggregate_at_taxon_level df "genus" grouping_cols [] "sum" true true
              = Ok simple_sum) by (vm_compute; reflexivity).
  destruct (output_columns df "genus" grouping_cols [] "sum" true true
              simple_sum H) as (idx & gc' & Hidx & Hgc & Hcols & _).
  simpl in Hgc. subst gc'. exact Hcols.
Defined.

Lemma valid_arguments_on_reference :
  Forall (fun c => c ∈ columns df) grouping_cols.
Proof.
  assert (H : aggregate_at_taxon_level df "genus" grouping_cols [] "sum" true true
              = Ok simple_sum) by (vm_compute; reflexivity).
  destruct (success_needs_valid_arguments df "genus" grouping_cols [] "sum" true
              true simple_sum H) as (idx & _ & _ & _ & Hgc & _).
  exact Hgc.
Defined.


Lemma sum_policy_rows_on_reference :
  exists row,
    row ∈ data (normalized true df)
    /\ [Int 1; Int 1; Int 1; Int 1; Int 1; Int 1; Int 1; Str "g__O"; Int 1]
       = group_key columns_ (grouping_cols ++ [L "genus"]) row
           ++ [Int (group_total (normalized true df) (grouping_cols ++ [L "genus"])
                      (group_key columns_ (grouping_cols ++ [L "genus"]) row))].
Proof.
  assert (H : aggregate_at_taxon_level df "genus" grouping_cols [] "sum" true true
              = Ok simple_sum) by (vm_compute; reflexivity).
  destruct (sum_policy_rows_come_from_groups df "genus" grouping_cols [] true
              true simple_sum default_dummy_dict 5 ltac:(discriminate)
              grouping_cols_not_count eq_refl eq_refl H
              [Int 1; Int 1; Int 1; Int 1; Int 1; Int 1; Int 1; Str "g__O"; Int 1])
    as [(row & Hrow & _ & _ & Heq)|[Hno _]].
  - right. left.
  - exists row. split; [exact Hrow | exact Heq].
  - discriminate Hno.
Defined.

Lemma custom_dummy_on_test_values :
  exists dummy_dict,
    process_dummy_values [("genus", "CUSTOM")] default_dummy_dict = Ok dummy_dict
    /\ dummy_dict !! "genus" = Some "CUSTOM"
    /\ dummy_dict !! "family" = Some "f__".
Proof.
  eexists. split; [reflexivity|].
  destruct (custom_dummy_values_override_defaults [("genus", "CUSTOM")] _ eq_refl)
    as (_ & Hkeep & Hlast).
  split.
  - apply (Hlast [] "genus" "CUSTOM" []); [reflexivity|].
    intros H. by apply elem_of_nil in H.
  - rewrite Hkeep; [reflexivity|].
    apply (bool_decide_unpack _). vm_compute. exact I.
Defined.
End PolicyWitnesses.

(** ** The rows and the total under the sum policy *)

Section OneRowPerKey.
Import Pandas TaxonMerger.

Lemma NoDup_sum_by_keys kvs : NoDup (sum_by kvs).*1.
Proof.
  unfold sum_by. rewrite sort_groups_perm, <- list_fmap_compose.
  assert (Hid : forall l : list (list cell),
            (fst ∘ (fun k => (k, total_for k kvs))) <$> l = l).
  { induction l as [|k l IH]; [done|]. rewrite fmap_cons, IH. done. }
  rewrite Hid. apply NoDup_remove_dups.
Qed.

Lemma has_na_replicate_NaN (k : list cell) n :
  0 < n -> has_na (k ++ replicate n NaN) = true.
Proof.
  intros Hn. unfold has_na. rewrite existsb_app.
  destruct n as [|n]; [lia|]. simpl. by rewrite orb_true_r.
Qed.

Context (df : DataFrame) (name : label) (gc : list label)
  (required : list string) (level dummy : string).

#[local] Abbreviation cs := (columns df).
#[local] Abbreviation cols := (gc ++ (L <$> required)).
#[local] Abbreviation kvs := (keyed_rows df cols).
#[local] Abbreviation summed := (mkSummed cols (sum_by kvs)).
#[local] Abbreviation new_df := (to_frame name summed).
#[local] Abbreviation out_cols := (cols ++ [L "count"]).

Context (Hgc : gc <> []) (Hnd : NoDup cols) (Hcount : L "count" ∉ cols)
  (Hlevel : level ∈ required).

Lemma row_keys (l : list (list cell * Z)) :
  Forall (fun kv => length kv.1 = length cols) l ->
  take (length cols) <$> ((fun kv => kv.1 ++ [Int kv.2]) <$> l) = l.*1.
Proof.
  intros Hl. rewrite <- list_fmap_compose. apply Forall_fmap_ext_1.
  eapply Forall_impl; [exact Hl|]. intros [k v] Hk. simpl in *.
  by rewrite take_app_length'.
Qed.

Lemma new_df_keys_NoDup : NoDup (take (length cols) <$> data new_df).
Proof.
  simpl. rewrite row_keys by apply (entries_length df gc required).
  apply NoDup_sum_by_keys.
Qed.

Lemma collapse_keys_NoDup new_df1 :
  collapse_unknown name level (Str dummy) gc summed new_df = Ok new_df1 ->
  NoDup (take (length cols) <$> data new_df1).
Proof.
  intros Hcollapse.
  destruct (level_loc gc required level Hlevel) as (i & Hloc & Hi).
  destruct (collapse_unknown_inv df name gc required level dummy Hgc Hnd Hcount
              Hlevel new_df1 i Hloc Hcollapse)
    as [[_ ->]|(_ & Hndgc & ->)]; [apply new_df_keys_NoDup|].
  unfold append, rows_ne. cbn [data columns].
  rewrite fmap_app. apply NoDup_app. split; [|split].
  - eapply sublist_NoDup; [apply new_df_keys_NoDup|].
    apply fmap_sublist, sublist_filter.
  - intros key Hkept Happended.
    apply list_elem_of_fmap in Hkept as (r & -> & [_ Hr]%list_elem_of_filter).
    apply (new_df_rows_inv df name gc required) in Hr as (row & _ & Hna & ->).
    rewrite take_app_length' in Happended by (by rewrite length_group_key).
    apply list_elem_of_fmap in Happended as (r' & Heq & Hr').
    apply list_elem_of_fmap in Hr' as (r0 & -> & Hr0).
    apply list_elem_of_fmap in Hr0 as ([gk T] & -> & HgkT).
    assert (Hlen : length gk = length gc).
    { rewrite (unknown_keyed_rows df name gc required level Hnd Hcount Hlevel i)
        in HgkT by (done || apply found_inv).
      apply elem_of_sum_by in HgkT as [Hgk _].
      rewrite <- list_fmap_compose in Hgk.
      apply list_elem_of_fmap in Hgk
        as ([k v] & -> & [_ Hkv]%list_elem_of_filter).
      apply (entries_inv df gc required) in Hkv as (row' & _ & _ & -> & _).
      simpl. by rewrite (key_take df gc required), length_group_key. }
    simpl in Heq.
    rewrite (appended_row gc required Hnd Hcount gk T Hndgc Hlen) in Heq.
    rewrite app_assoc, take_app_length' in Heq
      by (by rewrite !length_app, length_replicate, length_fmap, Hlen).
    rewrite Heq, has_na_replicate_NaN in Hna; [done|].
    destruct required; [by apply elem_of_nil in Hlevel | simpl; lia].
  - rewrite (unknown_keyed_rows df name gc required level Hnd Hcount Hlevel i)
      by (done || apply found_inv).
    set (found := filter _ (sum_by kvs)).
    set (regrouped := sum_by _).
    assert (Hlens : Forall (fun kv : list cell * Z => length kv.1 = length gc)
                      regrouped).
    { apply Forall_forall. intros [gk T] [Hgk _]%elem_of_sum_by.
      rewrite <- list_fmap_compose in Hgk.
      apply list_elem_of_fmap in Hgk
        as ([k v] & -> & [_ Hkv]%list_elem_of_filter).
      apply (entries_inv df gc required) in Hkv as (row' & _ & _ & -> & _).
      simpl. by rewrite (key_take df gc required), length_group_key. }
    assert (Hkeys :
      take (length cols)
        <$> ((fun row => cell_at (gc ++ [L "count"]) row <$> out_cols)
               <$> ((fun kv : list cell * Z => kv.1 ++ [Int kv.2]) <$> regrouped))
      = (fun gk => gk ++ replicate (length required) NaN) <$> regrouped.*1).
    { rewrite <- !list_fmap_compose. apply Forall_fmap_ext_1.
      eapply Forall_impl; [exact Hlens|]. intros [gk T] Hlen. simpl in *.
      rewrite (appended_row gc required Hnd Hcount gk T Hndgc Hlen).
      rewrite app_assoc, take_app_length'; [done|].
      by rewrite !length_app, length_replicate, length_fmap, Hlen. }
    simpl. rewrite Hkeys. apply NoDup_fmap_2; [|apply NoDup_sum_by_keys].
    intros a b Hab. by apply app_inv_tail in Hab.
Qed.

End OneRowPerKey.

Section SumTotals.
Import Pandas TaxonMerger.

(** Under the sum policy no two returned rows have the same values in the
    columns that were grouped by. *)
Theorem sum_policy_one_row_per_key
    (df : DataFrame) (taxon_level : string) (grouping_cols : list label)
    (dummy_values : list (string * string))
    (check_brackets simple_aggregation : bool) (out : DataFrame)
    (dummy_dict : gmap string string) (taxon_level_index : nat) :
  grouping_cols <> [] ->
  L "count" ∉ grouping_cols ->
  process_dummy_values dummy_values default_dummy_dict = Ok dummy_dict ->
  index (lower taxon_level) recognized_taxon_levels = Some taxon_level_index ->
  aggregate_at_taxon_level df taxon_level grouping_cols dummy_values "sum"
    check_brackets simple_aggregation = Ok out ->
  let by_ :=
    group_columns simple_aggregation grouping_cols (lower taxon_level)
      taxon_level_index in
  columns out = by_ ++ [L "count"]
  /\ NoDup (take (length by_) <$> data out).
Proof.
  intros Hgc Hcount Hdd Hidx H.
  destruct (aggregate_sum_inv _ _ _ _ _ _ _ _ _ Hgc Hdd Hidx H)
    as (new_df1 & Hnd & Hnew & Hsel).
  destruct (required_levels _ _ Hidx) as (Hlevel & Hlen & Hcreq).
  cbv zeta. unfold group_columns. destruct simple_aggregation.
  - injection Hnew as <-.
    change (grouping_cols ++ [L (lower taxon_level)])
      with (grouping_cols ++ (L <$> [lower taxon_level])) in *.
    assert (Hc : L "count" ∉ grouping_cols ++ (L <$> [lower taxon_level])).
    { intros [?|Hin]%elem_of_app; [done|].
      apply list_elem_of_singleton in Hin. injection Hin as Hin.
      apply Hcreq. by rewrite Hin. }
    apply select_self in Hsel as [Hcols Hdata];
      [|done | by apply NoDup_out_cols | by apply new_df_shape].
    split; [done|]. rewrite Hdata. apply new_df_keys_NoDup.
  - assert (Hc : L "count"
                 ∉ grouping_cols
                   ++ (L <$> take (S taxon_level_index) recognized_taxon_levels)).
    { intros [?|Hin]%elem_of_app; [done|].
      apply list_elem_of_fmap in Hin as (r & [= <-] & Hr). done. }
    destruct (collapse_shape _ _ _ _ _ _ Hgc Hnd Hc Hlevel _ Hnew)
      as [Hcols1 Hshape].
    apply select_self in Hsel as [Hcols Hdata];
      [|done | by apply NoDup_out_cols | done].
    split; [done|]. rewrite Hdata.
    by apply (collapse_keys_NoDup _ _ _ _ _ _ Hgc Hnd Hc Hlevel _ Hnew).
Qed.


End SumTotals.

Section SumWitnesses.
Import Pandas TaxonMerger Fixtures.

Lemma sum_policy_one_row_per_key_on_reference :
  NoDup (take 8 <$> data simple_sum).
Proof.
  assert (H : aggregate_at_taxon_level df "genus" grouping_cols [] "sum" true true
              = Ok simple_sum) by (vm_compute; reflexivity).
  exact (proj2 (sum_policy_one_row_per_key df "genus" grouping_cols [] true
                  true simple_sum default_dummy_dict 5 ltac:(discriminate)
                  grouping_cols_not_count eq_refl eq_refl H)).
Defined.


End SumWitnesses.

(** ** Count extraction *)

Section Extraction.
Import Phylo CountParser.

Lemma get_lineage_metadata table obs_id md tree1 taxa1 tree2 taxa2 :
  observation_metadata table = Some md ->
  get_lineage table obs_id tree1 taxa1 = get_lineage table obs_id tree2 taxa2.
Proof. intros Hmd. unfold get_lineage. by rewrite Hmd. Qed.

Lemma get_lineage_map_loop_metadata table md ids tree1 taxa1 tree2 taxa2 m :
  observation_metadata table = Some md ->
  get_lineage_map_loop table ids tree1 taxa1 m
  = get_lineage_map_loop table ids tree2 taxa2 m.
Proof.
  intros Hmd. revert m. induction ids as [|obs_id ids IH]; intros m; [done|].
  simpl. rewrite (get_lineage_metadata _ _ _ tree1 taxa1 tree2 taxa2 Hmd).
  destruct (get_lineage table obs_id tree2 taxa2); simpl; [apply IH | done].
Qed.

(** a table with observation metadata is read without the tree. *)
Theorem get_counts_ignores_tree_with_metadata
    (table : Table) (md : gmap string (option (list string)))
    (tree1 tree2 : option Clade) :
  observation_metadata table = Some md ->
  get_counts table tree1 = get_counts table tree2.
Proof.
  intros Hmd. unfold get_counts, get_lineage_map. cbv zeta.
  by rewrite (get_lineage_map_loop_metadata _ _ _ tree1 (get_tree_taxa <$> tree1)
                tree2 (get_tree_taxa <$> tree2) ∅ Hmd).
Qed.

(** The loop of [get_counts], read through the list of one sample. *)
Lemma get_counts_loop_sample cells lineage_map acc counts samp :
  get_counts_loop cells lineage_map acc = Ok counts ->
  let mine := filter (fun c : string * string * Z => c.1.2 = samp) cells in
  count <$> default [] (counts !! samp)
    = (count <$> default [] (acc !! samp)) ++ (snd <$> mine)
  /\ Some <$> (lineage <$> default [] (counts !! samp))
     = (Some <$> (lineage <$> default [] (acc !! samp)))
         ++ ((fun c : string * string * Z => lineage_map !! c.1.1) <$> mine)
  /\ (counts !! samp = None <-> acc !! samp = None /\ mine = []).
Proof.
  revert acc. induction cells as [|[[obs_id samp_id] value] cells IH];
    intros acc H; simpl in H.
  - injection H as <-. cbv zeta. rewrite filter_nil, !app_nil_r. tauto.
  - destruct (lineage_map !! obs_id) as [l|] eqn:Hl; [|done].
    rewrite bind_Ok in H. apply IH in H. cbv zeta in *.
    destruct H as (Hc & Hlin & Hnone).
    rewrite filter_cons. simpl. case_decide as Hs.
    + subst samp_id. rewrite lookup_insert_eq in Hc, Hlin, Hnone. simpl in *.
      rewrite Hc, Hlin, !fmap_app, <- !app_assoc. simpl. rewrite Hl.
      split; [done|]. split; [done|]. rewrite Hnone. split; intros [? ?]; done.
    + rewrite lookup_insert_ne in Hc, Hlin, Hnone by done. done.
Qed.

(** per sample, [get_counts] returns one element per nonzero cell of the
    sample, in table order, with the cell's value and the lineage of the
    cell's observation; a sample without nonzero cell has no entry. *)
Theorem get_counts_lists_nonzero_cells_per_sample
    (table : Table) (tree : option Clade)
    (counts : gmap string (list CountElement)) :
  get_counts table tree = Ok counts ->
  exists lineage_map,
    get_lineage_map table tree (get_tree_taxa <$> tree) = Ok lineage_map
    /\ forall samp,
         let mine :=
           filter (fun c : string * string * Z => c.1.2 = samp) (nonzero table) in
         count <$> default [] (counts !! samp) = snd <$> mine
         /\ Some <$> (lineage <$> default [] (counts !! samp))
            = (fun c : string * string * Z => lineage_map !! c.1.1) <$> mine
         /\ (counts !! samp = None <-> mine = []).
Proof.
  unfold get_counts. cbv zeta.
  intros (lineage_map & Hmap & Hloop)%bind_Ok_inv.
  exists lineage_map. split; [done|]. intros samp.
  destruct (get_counts_loop_sample _ _ _ _ samp Hloop) as (Hc & Hl & Hn).
  rewrite lookup_empty in Hc, Hl, Hn. simpl in *.
  split; [done|]. split; [done|]. rewrite Hn. tauto.
Qed.


(** *** Lineages read from the tree *)










(** *** When the extraction succeeds *)







(** *** Which label a rank gets *)








End Extraction.

(** ** File names *)

Section FileNames.
Import CountParser.

Lemma match_biom_id_app id rest :
  free_of "_" id -> free_of "010" id ->
  match_biom_id (id +:+ String "_" rest) = Some id.
Proof.
  induction id as [|c id IH]; simpl; [done|].
  intros [Hc Hid] [Hn Hnl]. rewrite !decide_False by done.
  by rewrite IH.
Qed.

Lemma match_biom_id_inv s id :
  match_biom_id s = Some id ->
  free_of "_" id /\ free_of "010" id
  /\ exists rest, s = id +:+ String "_" rest.
Proof.
  revert id. induction s as [|c s IH]; intros id; simpl; [done|].
  case_decide as Hu.
  { intros [= <-]. subst c. split; [done|]. split; [done|]. by exists s. }
  case_decide as Hn; [done|].
  destruct (match_biom_id s) as [id'|]; [|done]. intros [= <-].
  destruct (IH id' eq_refl) as (? & ? & rest & ->).
  simpl. split; [done|]. split; [done|]. by exists rest.
Qed.

Lemma basename_loop_free file tail :
  free_of "/" file -> basename_loop file tail = tail.
Proof.
  revert tail. induction file as [|c file IH]; intros tail; simpl; [done|].
  intros [Hc Hfile]. rewrite decide_False by done. by apply IH.
Qed.

Lemma basename_loop_join dir file tail :
  free_of "/" file ->
  basename_loop (dir +:+ String "/" file) tail = file.
Proof.
  intros Hfile. revert tail. induction dir as [|c dir IH]; intros tail; simpl.
  - by apply basename_loop_free.
  - case_decide; apply IH.
Qed.

(** the processing id of a BIOM path is the text of the file name up to
    its first underscore. *)
Theorem proc_id_is_file_name_up_to_underscore (dir id rest : string) :
  free_of "_" id -> free_of "010" id -> free_of "/" id -> free_of "/" rest ->
  get_proc_id_from_biom (dir +:+ String "/" (id +:+ String "_" rest)) = Some id.
Proof.
  intros Hu Hn Hs Hrest. unfold get_proc_id_from_biom, basename.
  rewrite basename_loop_join; [by apply match_biom_id_app|].
  clear Hu Hn. induction id as [|c id IH]; simpl in *; [done|].
  destruct Hs. split; [done | by apply IH].
Qed.

(** a processing id holds no underscore and no line break, and the file
    name goes on with an underscore after it. *)
Theorem proc_id_is_followed_by_underscore (biom_path id : string) :
  get_proc_id_from_biom biom_path = Some id ->
  free_of "_" id /\ free_of "010" id
  /\ exists rest, basename biom_path = id +:+ String "_" rest.
Proof. apply match_biom_id_inv. Qed.

Lemma scan_entries_first entries biom_id :
  let fits entry :=
    is_file entry && startswith (entry_name entry) biom_id
    && endswith (entry_name entry) ".tre" = true in
  match scan_entries entries biom_id with
  | None => Forall (fun entry => ~ fits entry) entries
  | Some tree_file =>
      exists i entry,
        entries !! i = Some entry /\ entry_name entry = tree_file
        /\ fits entry
        /\ forall j other, entries !! j = Some other -> j < i -> ~ fits other
  end.
Proof.
  cbv zeta. induction entries as [|entry entries IH]; cbn [scan_entries].
  - constructor.
  - destruct (is_file entry && _ && _) eqn:Hfits.
    + exists 0, entry. repeat split; try done. intros j other _ Hj. lia.
    + destruct (scan_entries entries biom_id) as [tree_file|].
      * destruct IH as (i & e & Hi & Hname & He & Hfirst).
        exists (S i), e. repeat split; try done.
        intros [|j] other Hother Hj; simpl in Hother.
        -- injection Hother as <-. by rewrite Hfits.
        -- apply (Hfirst j); [done | lia].
      * constructor; [by rewrite Hfits | done].
Qed.

(** the tree file found for a BIOM file is the first file of the
    directory whose name starts with the biom id (the text of the BIOM file
    name before its first underscore) and ends in [.tre]; without such a
    file the answer is [None], and a BIOM file name without biom id
    raises. *)
Theorem tree_file_is_first_match (entries : list DirEntry) (biom_file : string) :
  match get_tree_filename entries biom_file with
  | inl _ => match_biom_id biom_file = None
  | inr found =>
      exists biom_id,
        match_biom_id biom_file = Some biom_id
        /\ let fits entry :=
             is_file entry && startswith (entry_name entry) biom_id
             && endswith (entry_name entry) ".tre" = true in
           match found with
           | None => Forall (fun entry => ~ fits entry) entries
           | Some tree_file =>
               exists i entry,
                 entries !! i = Some entry /\ entry_name entry = tree_file
                 /\ fits entry
                 /\ forall j other, entries !! j = Some other -> j < i ->
                      ~ fits other
           end
  end.
Proof.
  unfold get_tree_filename.
  destruct (match_biom_id biom_file) as [biom_id|]; [|done].
  exists biom_id. split; [done|]. apply scan_entries_first.
Qed.

End FileNames.

(** ** Paths and lineages of the profiled implementation *)

Section Paths.
Import Phylo ProfileLineage ProfilePaths.

Lemma foldl_cons_reverse {A} (l acc : list A) :
  foldl (fun lineage taxon => taxon :: lineage) acc l = reverse l ++ acc.
Proof.
  revert acc. induction l as [|x l IH]; intros acc; [done|].
  simpl. by rewrite IH, reverse_cons, <- app_assoc.
Qed.

Lemma lineage_fold path acc :
  foldl (fun lineage clade =>
           match name clade with
           | None | Some EmptyString => lineage
           | Some n =>
               foldl (fun lineage taxon => taxon :: lineage) lineage
                 (profile_taxon_names n)
           end) acc path
  = (reverse path ≫= (fun clade => reverse (clade_taxa clade))) ++ acc.
Proof.
  revert acc. induction path as [|clade path IH]; intros acc; [done|].
  cbn [foldl]. rewrite IH, reverse_cons, bind_app, bind_singleton, <- app_assoc.
  f_equal. unfold clade_taxa.
  destruct (name clade) as [[|c n]|]; simpl default; try done.
  by rewrite foldl_cons_reverse.
Qed.

(** the lineage of a path lists the taxon names of its clades from the
    last clade of the path (the root) to the first, and the names found in
    one clade name in reverse; an empty or missing path gives [None]. *)
Theorem lineage_from_path_is_root_first (path : list Clade) :
  get_lineage_from_path None = None
  /\ get_lineage_from_path (Some path)
     = match path with
       | [] => None
       | _ => Some (reverse path ≫= (fun clade => reverse (clade_taxa clade)))
       end.
Proof.
  split; [done|]. destruct path as [|clade path]; [done|].
  unfold get_lineage_from_path. by rewrite lineage_fold, app_nil_r.
Qed.


(** *** The walk up the parent index *)

Lemma linked_app_one parents path a b :
  linked parents (path ++ [a]) -> parents !! ident a = Some b ->
  linked parents ((path ++ [a]) ++ [b]).
Proof.
  induction path as [|x path IH]; simpl; [done|].
  destruct path as [|y path]; simpl in *; [tauto|].
  intros [Hx Hrest] Hab. split; [done|]. by apply IH.
Qed.

Lemma get_path_loop_walk fuel parents clade acc path :
  get_path_loop fuel parents clade acc = Some path ->
  linked parents (acc ++ [clade]) ->
  exists walk,
    path = acc ++ clade :: walk
    /\ linked parents path
    /\ S (length walk) <= fuel
    /\ (forall top, last path = Some top -> parents !! ident top = None).
Proof.
  revert clade acc. induction fuel as [|fuel IH]; intros clade acc H Hlinked;
    [done|].
  simpl in H. destruct (parents !! ident clade) as [clade'|] eqn:Hp.
  - apply IH in H as (walk & -> & Hl & Hlen & Hlast).
    + exists (clade' :: walk). rewrite <- app_assoc in *. simpl in *.
      repeat split; try done; lia.
    + by apply linked_app_one.
  - injection H as <-. exists []. repeat split; try done; [simpl; lia|].
    intros top. rewrite last_snoc. by intros [= <-].
Qed.

Lemma get_path_loop_more_fuel fuel fuel' parents clade acc path :
  get_path_loop fuel parents clade acc = Some path -> fuel <= fuel' ->
  get_path_loop fuel' parents clade acc = Some path.
Proof.
  revert fuel' clade acc. induction fuel as [|fuel IH];
    intros [|fuel'] clade acc H Hle; try done; [lia|].
  simpl in *. destruct (parents !! ident clade); [|done].
  apply IH; [done | lia].
Qed.

(** whatever the parent index, a path that [get_path] returns starts at
    the clade of [seq], goes from each clade to its entry in [parents], and
    ends at a clade without entry; a [seq] that is not in [asv_clades] gives
    [None]; and more iterations do not change the answer. *)
Theorem get_path_follows_parents
    (fuel : nat) (seq : string) (parents : gmap nat Clade)
    (asv_clades : gmap string Clade) (path : option (list Clade)) :
  get_path fuel seq parents asv_clades = Some path ->
  match asv_clades !! seq with
  | None => path = None
  | Some clade =>
      exists walk,
        path = Some (clade :: walk)
        /\ length walk < fuel
        /\ linked parents (clade :: walk)
        /\ (forall top, last (clade :: walk) = Some top ->
              parents !! ident top = None)
  end
  /\ forall fuel', fuel <= fuel' ->
       get_path fuel' seq parents asv_clades = Some path.
Proof.
  unfold get_path. destruct (asv_clades !! seq) as [clade|].
  - destruct (get_path_loop fuel parents clade []) as [p|] eqn:Hloop; [|done].
    intros [= <-]. split.
    + pose proof Hloop as Hwalk.
      apply get_path_loop_walk in Hwalk as (walk & -> & Hl & Hlen & Hlast);
        [|done].
      exists walk. repeat split; try done; lia.
    + intros fuel' Hle.
      by rewrite (get_path_loop_more_fuel _ _ _ _ _ _ Hloop Hle).
  - intros [= <-]. done.
Qed.

(** *** The entries of the parent index *)

Lemma foldl_insert_lookup (l : list (nat * Clade)) (m : gmap nat Clade) k v :
  foldl (fun m kv => <[kv.1 := kv.2]> m) m l !! k = Some v ->
  (k, v) ∈ l \/ m !! k = Some v.
Proof.
  revert m. induction l as [|[k' v'] l IH]; intros m H; [by right|].
  simpl in H. apply IH in H as [H|H].
  - left. by right.
  - simpl in H. destruct (decide (k = k')) as [->|Hne].
    + rewrite lookup_insert_eq in H. injection H as ->. left. by left.
    + rewrite lookup_insert_ne in H by done. by right.
Qed.

(** every entry of the parent index is an edge of the tree: it maps the
    identity of a child to a clade of the tree that has this child. *)
Theorem all_parents_entries_are_edges (tree : Clade) (i : nat) (p : Clade) :
  all_parents tree !! i = Some p ->
  p ∈ nodes tree /\ exists c, c ∈ clades p /\ ident c = i.
Proof.
  rewrite all_parents_edges. intros [H|H]%foldl_insert_lookup; [|done].
  apply list_elem_of_bind in H as (q & Hq & Hin).
  unfold child_edges in Hq. apply list_elem_of_fmap in Hq as (c & [= -> ->] & Hc).
  split; [by rewrite <- find_clades_level_nodes | eauto].
Qed.

Lemma foldl_insert_list_to_map (l : list (nat * Clade)) :
  NoDup l.*1 ->
  foldl (fun m kv => <[kv.1 := kv.2]> m) (∅ : gmap nat Clade) l
  = list_to_map l.
Proof.
  intros Hnd. apply map_eq. intros k.
  destruct (list_to_map l !! k) as [v|] eqn:Hk.
  - apply elem_of_list_to_map in Hk; [|done]. by apply foldl_insert_in.
  - apply not_elem_of_list_to_map in Hk. by rewrite foldl_insert_notin.
Qed.

(** in a tree of distinct clades the parent index has one entry per
    clade other than the root. *)
Theorem all_parents_size (tree : Clade) :
  NoDup (ident <$> nodes tree) ->
  size (all_parents tree) = length (nodes tree) - 1.
Proof.
  intros Hid.
  assert (Hnd : NoDup (find_clades_level tree ≫= child_edges).*1).
  { rewrite (edge_keys_perm tree).
    rewrite nodes_unfold in Hid. simpl in Hid.
    by apply NoDup_cons in Hid as [_ ?]. }
  rewrite all_parents_edges, foldl_insert_list_to_map by done.
  rewrite <- length_map_to_list, map_to_list_to_map by done.
  rewrite <- (length_fmap fst), (edge_keys_perm tree), length_fmap.
  rewrite (nodes_unfold tree). simpl. lia.
Qed.


(** *** From the tree to the lineages of its sequence variants *)

Lemma length_nodes_child c cs :
  c ∈ cs -> length (nodes c) <= length (cs ≫= nodes).
Proof.
  induction cs as [|x cs IH]; intros Hc; [by apply elem_of_nil in Hc|].
  rewrite bind_cons, length_app.
  apply elem_of_cons in Hc as [->|Hc]; [lia|]. apply IH in Hc. lia.
Qed.

(** Every clade of the tree has a depth below the number of clades. *)
Lemma nodes_at_depth_lt tree n :
  n ∈ nodes tree -> exists d, at_depth tree d n /\ d < length (nodes tree).
Proof.
  assert (Hsub : forall t d0, at_depth tree d0 t ->
                   forall m, m ∈ nodes t ->
                     exists d, at_depth tree d m /\ d < d0 + length (nodes t)).
  { induction t as [i nm cs IH] using Clade_forall_ind.
    intros d0 Ht m Hm. rewrite nodes_unfold in Hm |- *. cbn [clades] in *.
    apply elem_of_cons in Hm as [->|Hm]; [exists d0; simpl; split; [done | lia]|].
    apply list_elem_of_bind in Hm as (c & Hm & Hc).
    rewrite Forall_forall in IH.
    destruct (IH c Hc (S d0)) with (m := m) as (d & Hd & Hlt); [|done|].
    - by econstructor.
    - exists d. split; [done|].
      pose proof (length_nodes_child c cs Hc). simpl. lia. }
  intros Hn. destruct (Hsub tree 0 (at_depth_root tree) n Hn) as (d & ? & ?).
  exists d. split; [done | lia].
Qed.

Lemma asv_filter_inv l asvs c :
  asv_filter l = Ok asvs ->
  c ∈ asvs <->
  c ∈ l /\ exists n, name c = Some n
                     /\ existsb (fun x => contains x n) ["T"; "A"; "G"; "C"]%char
                        = true.
Proof.
  revert asvs. induction l as [|x l IH]; intros asvs H; cbn [asv_filter] in H.
  - injection H as <-. split; [intros H; by apply elem_of_nil in H|].
    intros [H _]. by apply elem_of_nil in H.
  - destruct (name x) as [n|] eqn:Hn; [|done].
    apply bind_Ok_inv in H as (rest & Hrest & [= <-]).
    specialize (IH rest Hrest).
    destruct (contains "T" n || _) eqn:Hany.
    + rewrite !elem_of_cons, IH. split.
      * intros [->|[? ?]]; [split; [by left | by exists n] | split; [by right | done]].
      * intros [[->|?] ?]; [by left | right; done].
    + rewrite elem_of_cons, IH. split; [intros [? ?]; split; [by right | done]|].
      intros [[->|?] (n' & Hn' & Hany')]; [|split; [done | by exists n']].
      assert (n' = n) as -> by congruence. simpl in Hany'. congruence.
Qed.

Lemma asv_clades_dict_lookup asvs (d : gmap string Clade) seq leaf :
  foldl (fun d clade =>
           match name clade with
           | Some n => <[n := clade]> d
           | None => d
           end) d asvs !! seq = Some leaf ->
  (leaf ∈ asvs /\ name leaf = Some seq) \/ d !! seq = Some leaf.
Proof.
  revert d. induction asvs as [|c asvs IH]; intros d H; [by right|].
  simpl in H. apply IH in H as [[? ?]|H]; [left; split; [by right | done]|].
  destruct (name c) as [n|] eqn:Hn; [|by right].
  destruct (decide (seq = n)) as [->|Hne].
  - rewrite lookup_insert_eq in H. injection H as ->. left. split; [by left | done].
  - rewrite lookup_insert_ne in H by done. by right.
Qed.

Lemma asv_clades_dict_key asvs (d : gmap string Clade) c n :
  c ∈ asvs -> name c = Some n ->
  is_Some (foldl (fun d clade =>
                    match name clade with
                    | Some n => <[n := clade]> d
                    | None => d
                    end) d asvs !! n).
Proof.
  intros Hc Hn.
  assert (Hkeep : forall l (d0 : gmap string Clade), is_Some (d0 !! n) ->
            is_Some (foldl (fun d clade =>
                              match name clade with
                              | Some n => <[n := clade]> d
                              | None => d
                              end) d0 l !! n)).
  { induction l as [|x l IHl]; intros d0 Hd0; [done|].
    simpl. apply IHl. destruct (name x) as [n'|]; [|done].
    destruct (decide (n = n')) as [->|Hne].
    - rewrite lookup_insert_eq. eauto.
    - by rewrite lookup_insert_ne. }
  revert d. induction asvs as [|x asvs IH]; intros d;
    [by apply elem_of_nil in Hc|].
  simpl. apply elem_of_cons in Hc as [<-|Hc]; [|by apply IH].
  apply Hkeep. rewrite Hn, lookup_insert_eq. eauto.
Qed.

(** in a tree of distinct clades, every entry of the dictionary of
    sequence variants is a leaf of the tree filed under its name; the walk
    up the parent index from it, given as many iterations as the tree has
    clades, returns the path up to the root, and that path has a lineage;
    and every leaf whose name holds one of T, A, G, C has an entry. *)
Theorem sequence_variants_have_lineages
    (tree : Clade) (asvs : list Clade) (seq : string) (leaf : Clade) :
  NoDup (ident <$> nodes tree) ->
  generate_asv_clades tree = Ok asvs ->
  let asv_clades := asv_clades_dict asvs in
  (asv_clades !! seq = Some leaf ->
   name leaf = Some seq /\ clades leaf = [] /\ leaf ∈ nodes tree
   /\ exists path lineage,
        get_path (length (nodes tree)) seq (all_parents tree) asv_clades
          = Some (Some path)
        /\ path_to_root tree leaf path
        /\ get_lineage_from_path (Some path) = Some lineage)
  /\ (forall c n,
        c ∈ nodes tree -> clades c = [] -> name c = Some n ->
        existsb (fun x => contains x n) ["T"; "A"; "G"; "C"]%char = true ->
        is_Some (asv_clades !! n)).
Proof.
  intros Hid Hgen asv_clades. split.
  - intros Hseq. pose proof Hseq as Hleaf.
    apply asv_clades_dict_lookup in Hleaf as [[Hleaf Hname]|Hleaf]; [|done].
    apply (asv_filter_inv _ _ _ Hgen) in Hleaf as [Hterm _].
    apply list_elem_of_filter in Hterm as [Hterm Hnode].
    repeat split; try done.
    destruct (nodes_at_depth_lt tree leaf Hnode) as (d & Hd & Hlt).
    destruct (at_depth_path tree d leaf Hd) as (path & Hpath & Hlen).
    exists path. eexists. unfold get_path. rewrite Hseq.
    rewrite (get_path_loop_path tree Hid leaf path Hpath) by lia.
    split; [done|]. split; [done|].
    destruct path as [|x path]; [done|].
    unfold get_lineage_from_path. reflexivity.
  - intros c n Hc Hterm Hn Hany. apply (asv_clades_dict_key _ _ c); [|done].
    apply (asv_filter_inv _ _ _ Hgen). split; [|eauto].
    by apply list_elem_of_filter.
Qed.

End Paths.

(** ** The further properties on the example inputs *)

Section FurtherWitnesses.
Import Pandas TaxonMerger Phylo ProfileLineage CountParser Inputs.

Lemma brackets_do_not_change_result_on_example :
  aggregate_at_taxon_level bracketed_df "phylum" [L "sample_id"] [] "sum" true true
  = aggregate_at_taxon_level plain_df "phylum" [L "sample_id"] [] "sum" true true.
Proof.
  apply brackets_do_not_change_result. vm_compute. reflexivity.
Defined.


Lemma get_counts_ignores_tree_on_example :
  get_counts variant_table None = get_counts variant_table (Some small_tree).
Proof.
  eapply get_counts_ignores_tree_with_metadata. reflexivity.
Defined.

Lemma variant_table_is_read :
  exists counts, get_counts variant_table None = Ok counts.
Proof. eexists. vm_compute. reflexivity. Qed.

Lemma get_counts_lists_cells_on_example :
  exists counts,
    get_counts variant_table None = Ok counts
    /\ count <$> default [] (counts !! "Gut.1") = [3%Z]
    /\ counts !! "Gut.2" = None.
Proof.
  destruct variant_table_is_read as [counts Hcounts].
  exists counts. split; [exact Hcounts|].
  destruct (get_counts_lists_nonzero_cells_per_sample variant_table None counts
              Hcounts) as (lineage_map & _ & Hsamp).
  split.
  - destruct (Hsamp "Gut.1") as (-> & _). reflexivity.
  - destruct (Hsamp "Gut.2") as (_ & _ & Hnone). apply Hnone. reflexivity.
Defined.




Lemma proc_id_of_test_file :
  get_proc_id_from_biom "../data/test_data/experiments/101/56522_reference-hit.biom"
  = Some "56522".
Proof.
  apply (proc_id_is_file_name_up_to_underscore
           "../data/test_data/experiments/101" "56522" "reference-hit.biom");
    vm_compute; intuition discriminate.
Defined.

Lemma proc_id_of_test_file_has_no_underscore :
  free_of "_" "56522"
  /\ exists rest,
       basename "../data/test_data/experiments/101/56522_reference-hit.biom"
       = "56522" +:+ String "_" rest.
Proof.
  destruct (proc_id_is_followed_by_underscore
              "../data/test_data/experiments/101/56522_reference-hit.biom"
              "56522" eq_refl) as (Hfree & _ & Hrest).
  split; [exact Hfree | exact Hrest].
Defined.

Lemma get_path_follows_parents_on_small_tree :
  exists walk,
    get_path 3 "GGCC" (all_parents small_tree)
      {["GGCC" := mkClade 3 (Some "GGCC") []]}
    = Some (Some (mkClade 3 (Some "GGCC") [] :: walk))
    /\ length walk < 3.
Proof.
  destruct (get_path_follows_parents 3 "GGCC" (all_parents small_tree)
              {["GGCC" := mkClade 3 (Some "GGCC") []]}
              (Some [mkClade 3 (Some "GGCC") [];
                     mkClade 1 (Some "0.9:g__Bacteroides")
                       [mkClade 2 (Some "TACGGAGGATCC") [];
                        mkClade 3 (Some "GGCC") []];
                     small_tree]))
    as [Hpath _]; [vm_compute; reflexivity|].
  rewrite lookup_singleton_eq in Hpath.
  destruct Hpath as (walk & [= <-] & Hlen & _).
  eexists. split; [vm_compute; reflexivity | exact Hlen].
Defined.

Lemma all_parents_entry_on_small_tree :
  mkClade 1 (Some "0.9:g__Bacteroides")
    [mkClade 2 (Some "TACGGAGGATCC") []; mkClade 3 (Some "GGCC") []]
    ∈ nodes small_tree.
Proof.
  apply (all_parents_entries_are_edges small_tree 3). vm_compute. reflexivity.
Defined.

Lemma small_tree_distinct : NoDup (ident <$> nodes small_tree).
Proof. apply (bool_decide_unpack _). vm_compute. exact I. Defined.

Lemma all_parents_size_on_small_tree : size (all_parents small_tree) = 4.
Proof. apply (all_parents_size small_tree small_tree_distinct). Defined.

Lemma sequence_variants_on_small_tree :
  exists asvs path lineage,
    ProfilePaths.generate_asv_clades small_tree = Ok asvs
    /\ get_path 5 "GGCC" (all_parents small_tree)
         (ProfilePaths.asv_clades_dict asvs) = Some (Some path)
    /\ ProfilePaths.get_lineage_from_path (Some path) = Some lineage.
Proof.
  eexists.
  match goal with
  | |- exists path lineage, ?g = Ok ?asvs /\ _ =>
      assert (Hgen : g = Ok asvs) by (vm_compute; reflexivity)
  end.
  destruct (sequence_variants_have_lineages small_tree _ "GGCC"
              (mkClade 3 (Some "GGCC") []) small_tree_distinct Hgen)
    as [Hasv _].
  destruct Hasv as (_ & _ & _ & path & lineage & Hpath & _ & Hlin);
    [vm_compute; reflexivity|].
  exists path, lineage. split; [exact Hgen|]. split; [exact Hpath | exact Hlin].
Defined.

(** The tree file of the test experiment. *)
Example tree_file_of_test_experiment :
  get_tree_filename experiment_101 "56522_reference-hit.biom"
  = inr (Some "56522_insertion_tree.relabelled.tre").
Proof. reflexivity. Qed.

(** The two regular expressions on a bracketed genus: count_parser.py stops
    at the bracket, the profiled implementation reads through it. *)
Example taxon_names_of_bracketed_genus :
  taxon_names "0.9:g__[Ruminococcus]; s__gnavus" = ["g__"; "s__gnavus"]
  /\ ProfilePaths.profile_taxon_names "0.9:g__[Ruminococcus]; s__gnavus"
     = ["g__[Ruminococcus]"; "s__gnavus"].
Proof. split; reflexivity. Qed.

(** The lineage of the path from the leaf GGCC of the small tree. *)
Example lineage_of_small_tree_path :
  ProfilePaths.get_lineage_from_path
    (Some [mkClade 3 (Some "GGCC") [];
           mkClade 1 (Some "0.9:g__Bacteroides")
             [mkClade 2 (Some "TACGGAGGATCC") []; mkClade 3 (Some "GGCC") []];
           small_tree])
  = Some ["k__Bacteria"; "g__Bacteroides"].
Proof. reflexivity. Qed.

End FurtherWitnesses.
